(** * Event calendar: recurrence matching, conflict detection, relocation

    A shallow embedding of the scheduling logic of the calendar widget
    ([MonthlyCalendar], [home.tsx], [EventForm.tsx]) together with the
    fragment of the JavaScript runtime it calls into ([Date], [Number],
    [Math], string methods, date-fns [isSameDay] and [format]).

    Conventions of the embedding.
    - A [Date] is its time value: integer milliseconds since the epoch.
      Invalid dates (time value NaN) are not modelled.
    - A time zone is a [Zone]: the offset of local time at every
      instant, clock changes included. The page ([home.tsx]), whose
      relocation arithmetic mixes time values with local calendar
      fields, is embedded over an arbitrary zone. The month grid
      ([MonthlyCalendar]) is embedded in the zone of offset zero, where
      the local calendar fields are those of the proleptic Gregorian
      calendar on [Day t = floor (t / msPerDay)].
    - A string is a sequence of code units below 256.
    - A JavaScript number is an exact rational, one of the two infinities
      or NaN. [Number] and the arithmetic are not rounded to binary64,
      which is exact on every integer below 2^53; [parseInt] rounds
      the integer it reads. *)

From Stdlib Require Import ZArith QArith Bool List Ascii String Lia.
From Stdlib Require Import Numbers.DecimalString.
From Stdlib Require Qcanon.
From Stdlib Require Import Sorting.Permutation.
Import ListNotations.

Open Scope string_scope.
Open Scope Z_scope.

(* ================================================================== *)
(** ** The JavaScript runtime fragment *)
(* ================================================================== *)

Module JS.

(** *** Strings *)

(** WhiteSpace and LineTerminator code units below 256:
    TAB, LF, VT, FF, CR, SP, NBSP. *)
Definition isWhiteSpace (c : ascii) : bool :=
  let n := N_of_ascii c in
  ((9 <=? n) && (n <=? 13) || (n =? 32) || (n =? 160))%N.

Fixpoint dropWhile (p : ascii -> bool) (l : list ascii) : list ascii :=
  match l with
  | [] => []
  | c :: r => if p c then dropWhile p r else l
  end.

Definition trimChars (l : list ascii) : list ascii :=
  rev (dropWhile isWhiteSpace (rev (dropWhile isWhiteSpace l))).

(** [String.prototype.trim] *)
Definition trim (s : string) : string :=
  string_of_list_ascii (trimChars (list_ascii_of_string s)).

(** [s.split(sep)] for a one-character separator: always at least one
    piece, the pieces between consecutive separators. *)
Fixpoint split (sep : ascii) (s : string) : list string :=
  match s with
  | EmptyString => [EmptyString]
  | String c r =>
      if Ascii.eqb c sep then EmptyString :: split sep r
      else match split sep r with
           | [] => [String c EmptyString]
           | p :: ps => String c p :: ps
           end
  end.

(** [arr.includes(x)] on an array of strings *)
Definition includes (l : list string) (x : string) : bool :=
  existsb (fun y => String.eqb y x) l.

(** [a >= b] on strings: code-unit lexicographic order *)
Definition string_ge (a b : string) : bool := negb (String.ltb a b).

(** [!s] for a string: the empty string is the only falsy one *)
Definition falsy_string (s : string) : bool := String.eqb s "".

(** *** Numbers *)

Inductive number : Type :=
| Finite (q : Q)
| PosInf
| NegInf
| NaN.

Definition ofZ (z : Z) : number := Finite (inject_Z z).

Definition Qsign (q : Q) : comparison := (Qnum q ?= 0)%Z.

(** [a * b] *)
Definition mul (a b : number) : number :=
  let inf_times (positive : bool) (q : Q) :=
    match Qsign q with
    | Eq => NaN
    | Gt => if positive then PosInf else NegInf
    | Lt => if positive then NegInf else PosInf
    end in
  match a, b with
  | NaN, _ | _, NaN => NaN
  | Finite x, Finite y => Finite (Qred (x * y))
  | PosInf, Finite y | Finite y, PosInf => inf_times true y
  | NegInf, Finite y | Finite y, NegInf => inf_times false y
  | PosInf, PosInf | NegInf, NegInf => PosInf
  | PosInf, NegInf | NegInf, PosInf => NegInf
  end.

(** [a + b] on numbers *)
Definition add (a b : number) : number :=
  match a, b with
  | NaN, _ | _, NaN => NaN
  | Finite x, Finite y => Finite (Qred (x + y))
  | PosInf, NegInf | NegInf, PosInf => NaN
  | PosInf, _ | _, PosInf => PosInf
  | NegInf, _ | _, NegInf => NegInf
  end.

Definition Qltb (x y : Q) : bool :=
  (Qnum x * QDen y <? Qnum y * QDen x)%Z.

(** [a < b]; every comparison with NaN is false *)
Definition lt (a b : number) : bool :=
  match a, b with
  | NaN, _ | _, NaN => false
  | Finite x, Finite y => Qltb x y
  | NegInf, NegInf | PosInf, _ => false
  | NegInf, _ => true
  | Finite _, PosInf => true
  | Finite _, NegInf => false
  end.

(** [a > b] *)
Definition gt (a b : number) : bool := lt b a.

(** Digit value of a code unit in the given radix *)
Definition digitValue (radix : Z) (c : ascii) : option Z :=
  let n := Z.of_N (N_of_ascii c) in
  let v := if (48 <=? n) && (n <=? 57) then n - 48
           else if (97 <=? n) && (n <=? 122) then n - 87
           else if (65 <=? n) && (n <=? 90) then n - 55
           else radix in
  if v <? radix then Some v else None.

(** Longest prefix of digits: its value, its length, the rest *)
Fixpoint digits (radix : Z) (acc : Z) (len : nat) (l : list ascii)
  : Z * nat * list ascii :=
  match l with
  | [] => (acc, len, [])
  | c :: r =>
      match digitValue radix c with
      | Some v => digits radix (radix * acc + v) (S len) r
      | None => (acc, len, l)
      end
  end.

Definition pow10 (e : Z) : Q :=
  if 0 <=? e then inject_Z (10 ^ e) else 1 # Z.to_pos (10 ^ (- e)).

(** ExponentPart_opt followed by the end of the literal *)
Definition exponent (l : list ascii) : option Z :=
  match l with
  | [] => Some 0
  | c :: r =>
      if Ascii.eqb c "e" || Ascii.eqb c "E" then
        let '(neg, r1) :=
          match r with
          | s :: r' =>
              if Ascii.eqb s "-" then (true, r')
              else if Ascii.eqb s "+" then (false, r')
              else (false, r)
          | [] => (false, r)
          end in
        match digits 10 0 O r1 with
        | (_, O, _) => None
        | (v, _, []) => Some (if neg then - v else v)
        | _ => None
        end
      else None
  end.

(** StrUnsignedDecimalLiteral *)
Definition unsignedDecimal (l : list ascii) : number :=
  if String.eqb (string_of_list_ascii l) "Infinity" then PosInf
  else
    let '(ip, ilen, r) := digits 10 0 O l in
    let '(fp, flen, r1) :=
      match r with
      | c :: r' => if Ascii.eqb c "." then digits 10 0 O r' else (0, O, r)
      | [] => (0, O, r)
      end in
    match ilen, flen with
    | O, O => NaN
    | _, _ =>
        match exponent r1 with
        | None => NaN
        | Some e =>
            let mant :=
              (inject_Z ip + inject_Z fp * pow10 (- Z.of_nat flen))%Q in
            Finite (Qred (mant * pow10 e))
        end
    end.

(** NonDecimalIntegerLiteral: [0x], [0o], [0b] prefixes *)
Definition radixPrefix (l : list ascii) : option (Z * list ascii) :=
  match l with
  | z :: p :: r =>
      if Ascii.eqb z "0" then
        if Ascii.eqb p "x" || Ascii.eqb p "X" then Some (16, r)
        else if Ascii.eqb p "o" || Ascii.eqb p "O" then Some (8, r)
        else if Ascii.eqb p "b" || Ascii.eqb p "B" then Some (2, r)
        else None
      else None
  | _ => None
  end.

Definition neg (a : number) : number :=
  match a with
  | Finite q => Finite (Qred (- q))
  | PosInf => NegInf
  | NegInf => PosInf
  | NaN => NaN
  end.

(** [Number(s)]: StringToNumber *)
Definition Number (s : string) : number :=
  let l := trimChars (list_ascii_of_string s) in
  match l with
  | [] => ofZ 0
  | c :: r =>
      match radixPrefix l with
      | Some (radix, body) =>
          match digits radix 0 O body with
          | (_, O, _) => NaN
          | (v, _, []) => ofZ v
          | _ => NaN
          end
      | None =>
          if Ascii.eqb c "-" then neg (unsignedDecimal r)
          else if Ascii.eqb c "+" then unsignedDecimal r
          else unsignedDecimal l
      end
  end.

(** [n.toString()] for an integer *)
Definition toString (n : Z) : string :=
  NilZero.string_of_int (Z.to_int n).

(** *** Math on quotients of integers

    The source only applies [Math.ceil], [Math.round] and [Math.floor]
    to a quotient [a / b] of an integer by a positive integer constant;
    the three are given on the exact quotient. [Math.round] rounds a
    half towards plus infinity. *)

Definition Math_ceil_div (a b : Z) : Z := - ((- a) / b).
Definition Math_round_div (a b : Z) : Z := (2 * a + b) / (2 * b).
Definition Math_floor_div (a b : Z) : Z := a / b.

(** [a % b === 0] on integers: the remainder truncates towards zero *)
Definition rem_is_zero (a b : Z) : bool := Z.rem a b =? 0.

(** *** Date *)

Definition Date : Type := Z.

Definition msPerDay : Z := 1000 * 60 * 60 * 24.

Definition getTime (t : Date) : Z := t.

Definition Day (t : Date) : Z := t / msPerDay.
Definition TimeWithinDay (t : Date) : Z := t mod msPerDay.

(** Calendar fields of a day number, by 400-year eras of 146097 days
    that start on 1 March. [civil_of_doe] maps the day of the era to
    year of era, month (1..12) and day of month. *)
Definition civil_of_doe (doe : Z) : Z * Z * Z :=
  let yoe := (doe - doe / 1460 + doe / 36524 - doe / 146096) / 365 in
  let doy := doe - (365 * yoe + yoe / 4 - yoe / 100) in
  let mp := (5 * doy + 2) / 153 in
  let d := doy - (153 * mp + 2) / 5 + 1 in
  let m := if mp <? 10 then mp + 3 else mp - 9 in
  (yoe, m, d).

Definition civil_from_days (z : Z) : Z * Z * Z :=
  let z' := z + 719468 in
  let era := z' / 146097 in
  let '(yoe, m, d) := civil_of_doe (z' mod 146097) in
  (yoe + era * 400 + (if m <=? 2 then 1 else 0), m, d).

Definition doe_of_civil (yoe m d : Z) : Z :=
  let mp := if 2 <? m then m - 3 else m + 9 in
  yoe * 365 + yoe / 4 - yoe / 100 + (153 * mp + 2) / 5 + d - 1.

Definition days_from_civil (y m d : Z) : Z :=
  let y' := y - (if m <=? 2 then 1 else 0) in
  (y' / 400) * 146097 + doe_of_civil (y' mod 400) m d - 719468.

(** The calendar fields of a time value (YearFromTime, MonthFromTime,
    DateFromTime, WeekDay): what the [Date] methods of the same names
    return in the zone of offset zero. *)
Definition getFullYear (t : Date) : Z :=
  let '(y, _, _) := civil_from_days (Day t) in y.

(** months count from 0 *)
Definition getMonth (t : Date) : Z :=
  let '(_, m, _) := civil_from_days (Day t) in m - 1.

Definition getDate (t : Date) : Z :=
  let '(_, _, d) := civil_from_days (Day t) in d.

(** 0 is Sunday; day number 0 (1 January 1970) is a Thursday *)
Definition getDay (t : Date) : Z := (Day t + 4) mod 7.

(** [MakeDay(year, month, date)]: [month] counts from 0 and carries
    into the year, [date] carries into the following months. *)
Definition MakeDay (year month date : Z) : Z :=
  days_from_civil (year + month / 12) (month mod 12 + 1) 1 + date - 1.

(** The time value with the fields [year], [month] (from 0), [date],
    [hours] and [minutes]: MakeDate(MakeDay(year, month, date),
    MakeTime(hours, minutes, 0, 0)). The year is taken as it is: the
    constructor [new Date(year, month, date, hours, minutes)] returns
    this value, in the zone of offset zero, for every year outside
    0..99, which it reads as 1900..1999. *)
Definition newDate (year month date hours minutes : Z) : Date :=
  MakeDay year month date * msPerDay + hours * 3600000 + minutes * 60000.

(** *** Time zones

    A zone gives the offset of local time in milliseconds: at an
    instant ([offsetAtUTC], LocalTZA(t, true)) and at a local time
    value ([offsetAtLocal], LocalTZA(t, false)); the two differ around
    a clock change. *)
Record Zone : Type := mkZone {
  offsetAtUTC : Z -> Z;
  offsetAtLocal : Z -> Z
}.

Definition LocalTime (tz : Zone) (t : Date) : Z := t + offsetAtUTC tz t.
Definition UTC (tz : Zone) (l : Z) : Date := l - offsetAtLocal tz l.

(** A zone whose clocks never change *)
Definition fixedZone (offset : Z) : Zone :=
  mkZone (fun _ => offset) (fun _ => offset).

Definition utc : Zone := fixedZone 0.

(** New York in 2024: five hours behind UTC, four from 10 March,
    02:00 local (07:00 UTC), to 3 November, 02:00 local (06:00 UTC). A
    local time that a clock change skips or repeats is read with the
    offset before the change. *)
Definition newYork2024 : Zone :=
  mkZone
    (fun t => if (newDate 2024 2 10 7 0 <=? t) && (t <? newDate 2024 10 3 6 0)
              then -4 * 3600000 else -5 * 3600000)
    (fun l => if (newDate 2024 2 10 3 0 <=? l) && (l <? newDate 2024 10 3 2 0)
              then -4 * 3600000 else -5 * 3600000).

(** The [Date] methods in a zone *)
Definition getFullYearIn (tz : Zone) (t : Date) : Z :=
  getFullYear (LocalTime tz t).
Definition getMonthIn (tz : Zone) (t : Date) : Z := getMonth (LocalTime tz t).
Definition getDateIn (tz : Zone) (t : Date) : Z := getDate (LocalTime tz t).

(** [t.setDate(dt)]: the time value of the updated object. The local
    time gets day of the month [dt], keeps its year, month and time of
    day, and is turned back into an instant. *)
Definition setDate (tz : Zone) (t : Date) (dt : Z) : Date :=
  let l := LocalTime tz t in
  UTC tz (MakeDay (getFullYear l) (getMonth l) dt * msPerDay
          + TimeWithinDay l).

(** The instant at which the clocks of the zone show the given fields *)
Definition dateIn (tz : Zone) (year month date hours minutes : Z) : Date :=
  UTC tz (newDate year month date hours minutes).

Definition isLeapYear (y : Z) : bool :=
  (y mod 4 =? 0) && (negb (y mod 100 =? 0) || (y mod 400 =? 0)).

(** length of month [m] (1..12) of year [y] *)
Definition daysInMonth (y m : Z) : Z :=
  if m =? 2 then (if isLeapYear y then 29 else 28)
  else if (m =? 4) || (m =? 6) || (m =? 9) || (m =? 11) then 30
  else 31.

(** The binary64 value nearest to a positive integer, ties to the
    even significand: integers below 2^53 are exact, an integer of
    bit length [n + 53] is rounded to a multiple of [2 ^ n], and
    [None] stands for what rounds to 2^1024 or more, which is
    Infinity. *)
Definition roundToDouble (v : Z) : option Z :=
  if v <? 2 ^ 53 then Some v
  else
    let ulp := 2 ^ (Z.log2 v - 52) in
    let q := v / ulp in
    let r := v mod ulp in
    let q' := if 2 * r <? ulp then q
              else if ulp <? 2 * r then q + 1
              else if Z.even q then q else q + 1 in
    if q' * ulp <? 2 ^ 1024 then Some (q' * ulp) else None.

(** [!x] for a number: 0 and NaN are the falsy ones *)
Definition falsy_number (x : number) : bool :=
  match x with
  | Finite q => Qnum q =? 0
  | NaN => true
  | PosInf | NegInf => false
  end.

(** [parseInt(s)] without a radix: leading white space, an optional
    sign, an optional [0x] prefix, then the longest run of digits,
    whose value is rounded to binary64; NaN when there is no digit. *)
Definition parseInt (s : string) : number :=
  let l := dropWhile isWhiteSpace (list_ascii_of_string s) in
  let '(sign, l1) :=
    match l with
    | c :: r => if Ascii.eqb c "-" then (-1, r)
                else if Ascii.eqb c "+" then (1, r)
                else (1, l)
    | [] => (1, l)
    end in
  let '(radix, l2) :=
    match l1 with
    | z :: x :: r =>
        if Ascii.eqb z "0" && (Ascii.eqb x "x" || Ascii.eqb x "X")
        then (16, r) else (10, l1)
    | _ => (10, l1)
    end in
  match digits radix 0 O l2 with
  | (_, O, _) => NaN
  | (v, _, _) =>
      match roundToDouble v with
      | Some w => ofZ (sign * w)
      | None => if sign <? 0 then NegInf else PosInf
      end
  end.

End JS.

(** ** date-fns *)

Module DateFns.

Import JS.

(** [startOfDay(t)], with the day read in the zone of offset zero *)
Definition startOfDay (t : Date) : Date := Day t * msPerDay.

(** [isSameDay(a, b)]: the two dates have the same start of day *)
Definition isSameDay (a b : Date) : bool :=
  startOfDay a =? startOfDay b.

Definition weekdayNames : list string :=
  ["Sunday"; "Monday"; "Tuesday"; "Wednesday"; "Thursday"; "Friday";
   "Saturday"].

(** [format(t, "EEEE")]: the English name of the weekday *)
Definition format_EEEE (t : Date) : string :=
  nth (Z.to_nat (getDay t)) weekdayNames "".

End DateFns.

(* ================================================================== *)
(** ** MonthlyCalendar: the month grid and the self-managed event list *)
(* ================================================================== *)

Module MonthlyCalendar.

Import JS DateFns.

(** [interval] is an integer number of weeks; [None] is a missing
    field. *)
Record Recurrence : Type := mkRecurrence {
  type : string;
  days : option (list string);
  interval : option Z;
  endDate : option Date
}.

Record Event : Type := mkEvent {
  id : string;
  title : string;
  date : Date;
  startTime : option string;
  endTime : option string;
  description : option string;
  color : option string;
  recurrence : option Recurrence
}.

(** The predicate that [getEventsForDay] filters with: does [event]
    show on [day]? *)
Definition occursOn (event : Event) (day : Date) : bool :=
  match recurrence event with
  | None => isSameDay (date event) day
  | Some r =>
      if String.eqb (type r) "none" then isSameDay (date event) day
      else
        let eventDate : Date := date event in
        if String.eqb (type r) "daily" then true
        else if String.eqb (type r) "weekly" then
          match days r with
          | Some (d :: ds) =>
              let dayName := format_EEEE day in
              includes (d :: ds) dayName
          | _ => isSameDay (date event) day
          end
        else if String.eqb (type r) "monthly" then
          getDate day =? getDate eventDate
        else if String.eqb (type r) "custom" then
          match interval r with
          | Some i =>
              if negb (i =? 0) && (0 <? i) then
                let diffInDays :=
                  Math_round_div (getTime day - getTime eventDate)
                                 (1000 * 60 * 60 * 24) in
                let diffInWeeks := Math_floor_div diffInDays 7 in
                rem_is_zero diffInWeeks i
              else false
          | None => false
          end
        else isSameDay (date event) day
  end.

Definition getEventsForDay (eventsToUse : list Event) (day : Date)
  : list Event :=
  filter (fun event => occursOn event day) eventsToUse.

(** Component state. The list [events] received from the host is a
    property of the component and is passed to the functions that read
    it. *)
Record State : Type := mkState {
  localEvents : list Event;
  selectedDate : option Date;
  isEventFormOpen : bool;
  selectedEvent : option Event;
  isEditMode : bool
}.

Definition eventsToUse (events : list Event) (s : State) : list Event :=
  if 0 <? Z.of_nat (List.length events) then events else localEvents s.

Definition setLocalEvents (s : State) (l : list Event) : State :=
  mkState l (selectedDate s) (isEventFormOpen s) (selectedEvent s)
          (isEditMode s).

Definition setIsEventFormOpen (s : State) (b : bool) : State :=
  mkState (localEvents s) (selectedDate s) b (selectedEvent s)
          (isEditMode s).

Definition withId (e : Event) (i : string) : Event :=
  mkEvent i (title e) (date e) (startTime e) (endTime e) (description e)
          (color e) (recurrence e).

(** [{ ...event, date }] *)
Definition withDate (e : Event) (d : Date) : Event :=
  mkEvent (id e) (title e) d (startTime e) (endTime e) (description e)
          (color e) (recurrence e).

(** [now] is the value of [Date.now()] *)
Definition handleAddEvent (now : Z) (s : State) (eventData : Event)
  : State :=
  let s' :=
    match isEditMode s, selectedEvent s with
    | true, Some sel =>
        setLocalEvents s
          (map (fun e => if String.eqb (id e) (id sel) then eventData
                         else e)
               (localEvents s))
    | _, _ =>
        let newEvent :=
          withId eventData
                 (if falsy_string (id eventData) then toString now
                  else id eventData) in
        setLocalEvents s (localEvents s ++ [newEvent])
    end in
  setIsEventFormOpen s' false.

Definition handleDeleteEvent (s : State) (eventId : string) : State :=
  setIsEventFormOpen
    (setLocalEvents s
       (filter (fun event => negb (String.eqb (id event) eventId))
               (localEvents s)))
    false.

(** What a drop on a day cell does: hand over to the host's
    [onDragEvent], or update the component's own state. *)
Inductive DropOutcome : Type :=
| HostDrag (eventId : string) (date : Date)
| Internal (s' : State).

Definition onDrop (onDragEvent : bool) (events : list Event) (now : Z)
           (s : State) (date : Date) (eventId : string) : DropOutcome :=
  if onDragEvent then HostDrag eventId date
  else
    match find (fun e => String.eqb (id e) eventId)
               (eventsToUse events s) with
    | Some event =>
        let updatedEvent := withDate event date in
        Internal (handleAddEvent now s updatedEvent)
    | None => Internal s
    end.

(** What a click does: hand over to the host's [onAddEvent] or
    [onEditEvent], or update the component's own state. *)
Inductive ClickOutcome : Type :=
| HostAdd (date : Date)
| HostEdit (event : Event)
| Local (s' : State).

Definition handleDayClick (onAddEvent : bool) (s : State) (date : Date)
  : ClickOutcome :=
  if onAddEvent then HostAdd date
  else Local (mkState (localEvents s) (Some date) true None false).

Definition handleEventClick (onEditEvent : bool) (events : list Event)
           (s : State) (eventId : string) : ClickOutcome :=
  match find (fun e => String.eqb (id e) eventId) (eventsToUse events s) with
  | None => Local s
  | Some event =>
      if onEditEvent then HostEdit event
      else Local (mkState (localEvents s) (Some (date event)) true
                          (Some event) true)
  end.

(** [onClose] of the form *)
Definition onClose (s : State) : State := setIsEventFormOpen s false.

End MonthlyCalendar.

(* ================================================================== *)
(** ** Home: the host page, conflict checks and drag relocation *)
(* ================================================================== *)

Module Home.

Import JS.

Record Recurrence : Type := mkRecurrence {
  type : string;
  days : option (list string);
  interval : option Z;
  endDate : option Date
}.

Record Event : Type := mkEvent {
  id : string;
  title : string;
  date : Date;
  startTime : string;
  endTime : string;
  description : option string;
  color : option string;
  recurrence : option Recurrence
}.

Record State : Type := mkState {
  events : list Event;
  selectedEvent : option Event;
  isEventFormOpen : bool;
  isNewEvent : bool
}.

(** [const [hours, minutes] = time.split(":").map(Number)]; a missing
    second piece leaves [minutes] undefined and the sum is NaN. *)
Definition timeToMinutes (time : string) : number :=
  match map Number (split ":" time) with
  | hours :: minutes :: _ => add (mul hours (ofZ 60)) minutes
  | _ => NaN
  end.

(** The year, month and day-of-month comparison that both conflict
    checks apply to two dates. *)
Definition sameFields (tz : Zone) (a b : Date) : bool :=
  (getFullYearIn tz a =? getFullYearIn tz b) &&
  (getMonthIn tz a =? getMonthIn tz b) &&
  (getDateIn tz a =? getDateIn tz b).

(** The callback of [some], the same in both conflict checks. *)
Definition overlaps (cStart cEnd eStart eEnd : string) : bool :=
  let eventStart := timeToMinutes cStart in
  let eventEnd := timeToMinutes cEnd in
  let existingStart := timeToMinutes eStart in
  let existingEnd := timeToMinutes eEnd in
  lt eventStart existingEnd && gt eventEnd existingStart.

Definition checkForEventConflicts (tz : Zone) (s : State)
           (eventData : Event) : bool :=
  let eventsOnSameDate :=
    filter (fun e =>
              if negb (isNewEvent s) && String.eqb (id e) (id eventData)
              then false
              else
                let eventDate : Date := date e in
                let newEventDate : Date := date eventData in
                sameFields tz eventDate newEventDate)
           (events s) in
  existsb (fun e => overlaps (startTime eventData) (endTime eventData)
                             (startTime e) (endTime e))
          eventsOnSameDate.

Definition checkForConflicts (tz : Zone) (s : State) (event : Event)
           (targetDate : Date) : bool :=
  let eventsOnTargetDate :=
    filter (fun e =>
              if String.eqb (id e) (id event) then false
              else
                let eventDate : Date := date e in
                sameFields tz eventDate targetDate)
           (events s) in
  existsb (fun e => overlaps (startTime event) (endTime event)
                             (startTime e) (endTime e))
          eventsOnTargetDate.

(** [{ ...event, date: newEventDate }] *)
Definition withDate (e : Event) (d : Date) : Event :=
  mkEvent (id e) (title e) d (startTime e) (endTime e) (description e)
          (color e) (recurrence e).

Definition withId (e : Event) (i : string) : Event :=
  mkEvent i (title e) (date e) (startTime e) (endTime e) (description e)
          (color e) (recurrence e).

(** What the callback of [map] in [updateEventDate] returns for the
    event with the given id. *)
Definition relocated (tz : Zone) (event : Event) (newDate : Date) : Event :=
  let diffTime := getTime newDate - getTime (date event) in
  let diffDays := Math_ceil_div diffTime (1000 * 60 * 60 * 24) in
  let newEventDate : Date := date event in
  let newEventDate :=
    setDate tz newEventDate (getDateIn tz newEventDate + diffDays) in
  withDate event newEventDate.

(** The list handed to [setEvents] by [updateEventDate] *)
Definition updateEventDate (tz : Zone) (evs : list Event)
           (eventId : string) (newDate : Date) : list Event :=
  map (fun event =>
         if String.eqb (id event) eventId then relocated tz event newDate
         else event)
      evs.

Definition setEvents (s : State) (l : list Event) : State :=
  mkState l (selectedEvent s) (isEventFormOpen s) (isNewEvent s).

(** [confirmed] is the answer the user gives if [confirm] is shown *)
Definition handleDragEvent (tz : Zone) (confirmed : bool) (s : State)
           (eventId : string) (newDate : Date) : State :=
  match find (fun event => String.eqb (id event) eventId) (events s) with
  | None => s
  | Some draggedEvent =>
      let hasConflict := checkForConflicts tz s draggedEvent newDate in
      if hasConflict then
        if confirmed
        then setEvents s (updateEventDate tz (events s) eventId newDate)
        else s
      else setEvents s (updateEventDate tz (events s) eventId newDate)
  end.

Definition handleSaveEvent (tz : Zone) (confirmed : bool) (now : Z)
           (s : State) (eventData : Event) : State :=
  let hasConflict := checkForEventConflicts tz s eventData in
  if hasConflict && negb confirmed then s
  else
    let s' :=
      if isNewEvent s then
        setEvents s (events s ++ [withId eventData (toString now)])
      else
        setEvents s
          (map (fun e => if String.eqb (id e) (id eventData)
                         then eventData else e)
               (events s)) in
    mkState (events s') (selectedEvent s') false (isNewEvent s').

Definition handleDeleteEvent (s : State) (eventId : string) : State :=
  mkState (filter (fun e => negb (String.eqb (id e) eventId)) (events s))
          (selectedEvent s) false (isNewEvent s).

(** [now] is the value of [new Date()], used when no date is passed *)
Definition handleAddEvent (now : Date) (s : State) (date : option Date)
  : State :=
  mkState (events s)
          (Some (mkEvent "" ""
                         (match date with Some d => d | None => now end)
                         "09:00" "10:00" (Some "") (Some "green")
                         (Some (mkRecurrence "none" None None None))))
          true true.

Definition handleEditEvent (s : State) (event : Event) : State :=
  mkState (events s) (Some event) true false.

End Home.

(* ================================================================== *)
(** ** EventForm: validation at the form boundary *)
(* ================================================================== *)

Module EventForm.

Import JS.

Record Recurrence : Type := mkRecurrence {
  type : string;
  days : option (list string);
  interval : option Z
}.

(** [date] is [None] when the form holds no date. *)
Record EventData : Type := mkEventData {
  id : string;
  title : string;
  date : option Date;
  startTime : string;
  endTime : string;
  description : string;
  recurrence : Recurrence;
  color : string
}.

Record Validation : Type := mkValidation {
  valid : bool;
  message : option string
}.

Definition invalid (m : string) : Validation := mkValidation false (Some m).

Definition validateForm (event : EventData) : Validation :=
  if falsy_string (trim (title event)) then
    invalid "Event title is required"
  else if match date event with None => true | Some _ => false end then
    invalid "Event date is required"
  else if falsy_string (startTime event) then
    invalid "Start time is required"
  else if falsy_string (endTime event) then
    invalid "End time is required"
  else if string_ge (startTime event) (endTime event) then
    invalid "End time must be after start time"
  else if String.eqb (type (recurrence event)) "weekly" &&
          match days (recurrence event) with
          | None => true
          | Some l => Z.of_nat (List.length l) =? 0
          end then
    invalid "Please select at least one day for weekly recurrence"
  else if String.eqb (type (recurrence event)) "custom" &&
          match interval (recurrence event) with
          | None => true
          | Some i => (i =? 0) || (i <? 1)
          end then
    invalid "Custom recurrence interval must be at least 1"
  else mkValidation true None.

(** What a click on Save does: show an alert and stop, or hand the
    event to [onSave] and close the form. *)
Inductive SaveOutcome : Type :=
| Alert (message : option string)
| ConflictWarning
| Saved (event : EventData).

Definition handleSave (event : EventData) : SaveOutcome :=
  let validation := validateForm event in
  if negb (valid validation) then Alert (message validation)
  else
    let hasConflict := false in
    if hasConflict then ConflictWarning
    else Saved event.

Definition withRecurrence (e : EventData) (r : Recurrence) : EventData :=
  mkEventData (id e) (title e) (date e) (startTime e) (endTime e)
              (description e) r (color e).

Definition handleRecurrenceChange (event : EventData) (type : string)
  : EventData :=
  withRecurrence event
    (mkRecurrence type
                  (if String.eqb type "weekly" then Some [] else None)
                  (if String.eqb type "custom" then Some 1 else None)).

Definition handleWeekdayToggle (event : EventData) (day : string)
  : EventData :=
  let days := match days (recurrence event) with
              | Some l => l
              | None => []
              end in
  let updatedDays :=
    if includes days day
    then filter (fun d => negb (String.eqb d day)) days
    else (days ++ [day])%list in
  withRecurrence event
    (mkRecurrence (type (recurrence event)) (Some updatedDays)
                  (interval (recurrence event))).

(** The [onChange] of the interval input, which stores
    [parseInt(value) || 1]. The interval of a [Recurrence] is an
    integer here: the result is [None] where the stored number would
    be an infinity, which [parseInt] gives for a numeral worth 2^1024
    or more after rounding. *)
Definition handleIntervalChange (event : EventData) (value : string)
  : option EventData :=
  let parsed := parseInt value in
  match (if falsy_number parsed then ofZ 1 else parsed) with
  | Finite q =>
      Some (withRecurrence event
              (mkRecurrence (type (recurrence event))
                            (days (recurrence event))
                            (Some (Qnum q / QDen q))))
  | _ => None
  end.

End EventForm.

(* ================================================================== *)
(** ** DayCell: one cell of the month grid *)
(* ================================================================== *)

Module DayCell.

Import JS.

(** [handleDrop]: the id read from the drag data is forwarded to
    [onDrop] with the cell's date when the id is not empty and a
    handler is given; [None] is no call. *)
Definition handleDrop (onDrop : bool) (date : Date) (eventId : string)
  : option (Date * string) :=
  if negb (falsy_string eventId) && onDrop then Some (date, eventId)
  else None.

End DayCell.

(* ================================================================== *)
(** ** The vocabulary of the specification *)
(* ================================================================== *)

Module Spec.

Import JS.

(** Two dates fall on the same year, month and day, read in the zone
    of offset zero. *)
Definition sameCalendarDay (a b : Date) : Prop :=
  getFullYear a = getFullYear b /\
  getMonth a = getMonth b /\
  getDate a = getDate b.

(** Signed whole-day difference, ignoring the time of day. *)
Definition dayDelta (from to : Date) : Z := Day to - Day from.

(** A calendar day as the month grid produces it: a date at the start
    of its day. *)
Definition isCalendarDay (day : Date) : Prop := TimeWithinDay day = 0.

(** The date [n] whole days later, at the same time of day. *)
Definition shiftDays (t : Date) (n : Z) : Date := t + n * msPerDay.

(** The same notions read on the clocks of a zone: the same local
    calendar day, the difference of the local calendar days, a date at
    the start of its local day, and the date [n] calendar days later at
    the same local time of day. *)
Definition sameCalendarDayIn (tz : Zone) (a b : Date) : Prop :=
  sameCalendarDay (LocalTime tz a) (LocalTime tz b).

Definition dayDeltaIn (tz : Zone) (from to : Date) : Z :=
  dayDelta (LocalTime tz from) (LocalTime tz to).

Definition isCalendarDayIn (tz : Zone) (day : Date) : Prop :=
  isCalendarDay (LocalTime tz day).

Definition shiftDaysIn (tz : Zone) (t : Date) (n : Z) : Date :=
  UTC tz (shiftDays (LocalTime tz t) n).

(** The grid day of a date: the start of its local day. *)
Definition gridDayIn (tz : Zone) (t : Date) : Date :=
  UTC tz (DateFns.startOfDay (LocalTime tz t)).

(** What is left of the page's events after the removal of an id:
    the events that do not carry it, in their order. *)
Fixpoint survivors (eventId : string) (l : list Home.Event)
  : list Home.Event :=
  match l with
  | [] => []
  | e :: r => if String.eqb (Home.id e) eventId then survivors eventId r
              else e :: survivors eventId r
  end.

(** The weekday name of a date. *)
Definition weekdayName (t : Date) : string := DateFns.format_EEEE t.

(** The validation rules of the form in their fixed order, each a
    failure test with its message. *)
Definition rules : list ((EventForm.EventData -> bool) * string) :=
  [ (fun e => String.eqb (trim (EventForm.title e)) "",
     "Event title is required");
    (fun e => match EventForm.date e with None => true | _ => false end,
     "Event date is required");
    (fun e => String.eqb (EventForm.startTime e) "",
     "Start time is required");
    (fun e => String.eqb (EventForm.endTime e) "",
     "End time is required");
    (fun e => string_ge (EventForm.startTime e) (EventForm.endTime e),
     "End time must be after start time");
    (fun e => String.eqb (EventForm.type (EventForm.recurrence e)) "weekly"
              && match EventForm.days (EventForm.recurrence e) with
                 | Some (_ :: _) => false
                 | _ => true
                 end,
     "Please select at least one day for weekly recurrence");
    (fun e => String.eqb (EventForm.type (EventForm.recurrence e)) "custom"
              && match EventForm.interval (EventForm.recurrence e) with
                 | Some i => i <? 1
                 | None => true
                 end,
     "Custom recurrence interval must be at least 1") ].

(** The message of the first rule that fails, if any does. *)
Fixpoint firstFailing (rs : list ((EventForm.EventData -> bool) * string))
         (e : EventForm.EventData) : option string :=
  match rs with
  | [] => None
  | (fails, msg) :: rest =>
      if fails e then Some msg else firstFailing rest e
  end.

(** A time string of the shape HH:MM: two runs of decimal digits. *)
Definition isDigit (c : ascii) : bool :=
  let n := N_of_ascii c in ((48 <=? n) && (n <=? 57))%N.

Fixpoint allDigits (s : string) : bool :=
  match s with
  | EmptyString => true
  | String c r => isDigit c && allDigits r
  end.

Fixpoint decimalValue (acc : Z) (s : string) : Z :=
  match s with
  | EmptyString => acc
  | String c r => decimalValue (10 * acc + (Z.of_N (N_of_ascii c) - 48)) r
  end.

Definition isNumeral (s : string) : bool :=
  negb (String.eqb s "") && allDigits s.

(** [t] is parseable as two colon-separated integers in range. *)
Definition parseableInRange (t : string) : Prop :=
  exists hh mm : string,
    t = hh ++ ":" ++ mm /\
    isNumeral hh = true /\ isNumeral mm = true /\
    0 <= decimalValue 0 hh <= 23 /\ 0 <= decimalValue 0 mm <= 59.

(** The months of 30 and of 31 days, counted from 0 as [getMonth]
    does. *)
Definition thirtyDayMonths : list Z := [3; 5; 8; 10].
Definition thirtyOneDayMonths : list Z := [0; 2; 4; 6; 7; 9; 11].


(** The half-open overlap rule on the minute offsets. *)
Definition rangesOverlap (cStart cEnd eStart eEnd : string) : Prop :=
  lt (Home.timeToMinutes cStart) (Home.timeToMinutes eEnd) = true /\
  gt (Home.timeToMinutes cEnd) (Home.timeToMinutes eStart) = true.

(** Leap years of the Gregorian calendar. *)
Definition isLeap (y : Z) : Prop :=
  y mod 4 = 0 /\ (y mod 100 <> 0 \/ y mod 400 = 0).

(** Two recurrence rules agree on what the matcher reads. *)
Definition sameRule (r r' : MonthlyCalendar.Recurrence) : Prop :=
  MonthlyCalendar.type r = MonthlyCalendar.type r' /\
  MonthlyCalendar.days r = MonthlyCalendar.days r' /\
  MonthlyCalendar.interval r = MonthlyCalendar.interval r'.

(** A string without a colon. *)
Fixpoint noColon (s : string) : bool :=
  match s with
  | EmptyString => true
  | String c r => negb (Ascii.eqb c ":") && noColon r
  end.

(** A numeral of exactly two digits. *)
Definition twoDigits (s : string) : bool :=
  match s with
  | String a (String b EmptyString) => isDigit a && isDigit b
  | _ => false
  end.

(** The weekdays ticked in the form: [days || []]. *)
Definition selectedDays (e : EventForm.EventData) : list string :=
  match EventForm.days (EventForm.recurrence e) with
  | Some l => l
  | None => []
  end.

(** The form with its recurrence set aside. *)
Definition withoutRecurrence (e : EventForm.EventData) : EventForm.EventData :=
  EventForm.withRecurrence e (EventForm.mkRecurrence "none" None None).

End Spec.

(* ================================================================== *)
(** * Properties *)
(* ================================================================== *)

(** ** The calendar *)

Section Calendar.

Import JS Spec.

Ltac euclid := Z.to_euclidean_division_equations; lia.

(** The year of the era: its range, the range of the day of the year,
    and the last day of a 366-day year belongs to a leap February. *)
Lemma yoe_of_doe doe :
  0 <= doe < 146097 ->
  let yoe := (doe - doe / 1460 + doe / 36524 - doe / 146096) / 365 in
  let doy := doe - (365 * yoe + yoe / 4 - yoe / 100) in
  0 <= yoe <= 399 /\ 0 <= doy <= 365 /\
  (doy = 365 -> isLeapYear (yoe + 1) = true).
Proof.
  intros H yoe doy. subst doy yoe.
  split; [euclid|]. split; [euclid|].
  intros E. unfold isLeapYear.
  rewrite andb_true_iff, orb_true_iff, negb_true_iff, Z.eqb_neq, !Z.eqb_eq.
  euclid.
Qed.

(** Month and day of the month from the day of a year that starts on
    1 March. *)
Lemma month_of_doy doy :
  0 <= doy <= 365 ->
  let mp := (5 * doy + 2) / 153 in
  let d := doy - (153 * mp + 2) / 5 + 1 in
  0 <= mp <= 11 /\ 1 <= d /\
  d <= (if mp =? 11 then 29
        else if (mp =? 1) || (mp =? 3) || (mp =? 6) || (mp =? 8) then 30
        else 31) /\
  (mp = 11 -> d = 29 -> doy = 365).
Proof.
  intros H mp d. subst d.
  assert (Hmp : 0 <= mp <= 11) by (subst mp; euclid).
  split; [exact Hmp|].
  assert (mp = 0 \/ mp = 1 \/ mp = 2 \/ mp = 3 \/ mp = 4 \/ mp = 5 \/
          mp = 6 \/ mp = 7 \/ mp = 8 \/ mp = 9 \/ mp = 10 \/ mp = 11)
    as Hc by lia.
  assert (Hd : 153 * mp <= 5 * doy + 2 < 153 * mp + 153) by (subst mp; euclid).
  clearbody mp.
  repeat (destruct Hc as [->|Hc]); try subst mp; simpl; euclid.
Qed.

Lemma civil_of_doe_spec doe :
  0 <= doe < 146097 ->
  exists yoe m d,
    civil_of_doe doe = (yoe, m, d) /\
    0 <= yoe < 400 /\ 1 <= m <= 12 /\
    1 <= d <= daysInMonth (yoe + (if m <=? 2 then 1 else 0)) m /\
    doe_of_civil yoe m d = doe.
Proof.
  intros H. unfold civil_of_doe.
  destruct (yoe_of_doe doe H) as (Hy & Hdoy & Hleap).
  set (yoe := (doe - doe / 1460 + doe / 36524 - doe / 146096) / 365) in *.
  set (doy := doe - (365 * yoe + yoe / 4 - yoe / 100)) in *.
  destruct (month_of_doy doy Hdoy) as (Hmp & Hd1 & Hd2 & Hfeb).
  set (mp := (5 * doy + 2) / 153) in *.
  set (d := doy - (153 * mp + 2) / 5 + 1) in *.
  exists yoe, (if mp <? 10 then mp + 3 else mp - 9), d.
  split; [reflexivity|].
  assert (Hdoe : yoe * 365 + yoe / 4 - yoe / 100 + (153 * mp + 2) / 5 + d - 1
                 = doe) by (subst d doy; ring).
  clearbody d mp doy yoe.
  split; [lia|].
  assert (mp = 0 \/ mp = 1 \/ mp = 2 \/ mp = 3 \/ mp = 4 \/ mp = 5 \/
          mp = 6 \/ mp = 7 \/ mp = 8 \/ mp = 9 \/ mp = 10 \/ mp = 11)
    as Hc by lia.
  unfold doe_of_civil, daysInMonth.
  repeat (destruct Hc as [->|Hc]); try subst mp;
    cbn -[Z.div Z.modulo Z.mul isLeapYear] in *;
    try (split; [lia|split; [lia|exact Hdoe]]).
  split; [lia|]. split; [|exact Hdoe].
  destruct (isLeapYear (yoe + 1)) eqn:L; [lia|].
  destruct (Z.eq_dec d 29) as [E|E]; [|lia].
  pose proof (Hleap (Hfeb eq_refl E)) as L'. congruence.
Qed.

Lemma isLeapYear_isLeap y : isLeapYear y = true <-> isLeap y.
Proof.
  unfold isLeapYear, isLeap.
  now rewrite andb_true_iff, orb_true_iff, negb_true_iff, Z.eqb_neq, !Z.eqb_eq.
Qed.

(** The day of the era that starts at day [doy] of year [yoe] has that
    year of the era. *)
Lemma yoe_of_start yoe doy :
  0 <= yoe <= 399 ->
  0 <= doy <= 364 \/ (doy = 365 /\ isLeap (yoe + 1)) ->
  let doe := yoe * 365 + yoe / 4 - yoe / 100 + doy in
  0 <= doe < 146097 /\
  (doe - doe / 1460 + doe / 36524 - doe / 146096) / 365 = yoe.
Proof.
  intros Hy Hd doe. subst doe. unfold isLeap in Hd.
  split; euclid.
Qed.

Lemma civil_of_doe_char yoe mp d :
  0 <= yoe <= 399 -> 0 <= mp <= 11 -> 1 <= d ->
  let doy := (153 * mp + 2) / 5 + d - 1 in
  153 * mp <= 5 * doy + 2 < 153 * mp + 153 ->
  0 <= doy <= 364 \/ (doy = 365 /\ isLeap (yoe + 1)) ->
  let doe := yoe * 365 + yoe / 4 - yoe / 100 + doy in
  0 <= doe < 146097 /\
  civil_of_doe doe = (yoe, if mp <? 10 then mp + 3 else mp - 9, d).
Proof.
  intros Hy Hmp Hd doy Hm Hdoy doe.
  destruct (yoe_of_start yoe doy Hy Hdoy) as [Hb Ey]. fold doe in Hb, Ey.
  split; [exact Hb|].
  unfold civil_of_doe. rewrite Ey. cbv zeta.
  replace (doe - (365 * yoe + yoe / 4 - yoe / 100)) with doy
    by (subst doe; ring).
  replace ((5 * doy + 2) / 153) with mp
    by (apply (Z.div_unique _ _ _ (5 * doy + 2 - 153 * mp)); lia).
  f_equal. subst doy. ring.
Qed.

Lemma doe_of_civil_spec yoe m d :
  0 <= yoe < 400 -> 1 <= m <= 12 ->
  1 <= d <= daysInMonth (yoe + (if m <=? 2 then 1 else 0)) m ->
  0 <= doe_of_civil yoe m d < 146097 /\
  civil_of_doe (doe_of_civil yoe m d) = (yoe, m, d).
Proof.
  intros Hy Hm Hd.
  assert (m = 1 \/ m = 2 \/ m = 3 \/ m = 4 \/ m = 5 \/ m = 6 \/
          m = 7 \/ m = 8 \/ m = 9 \/ m = 10 \/ m = 11 \/ m = 12)
    as Hc by lia.
  assert (Hfeb : m = 2 -> d = 29 -> isLeap (yoe + 1)).
  { intros -> ->. apply isLeapYear_isLeap. unfold daysInMonth in Hd.
    cbn -[isLeapYear] in Hd.
    destruct (isLeapYear (yoe + 1)); [reflexivity|lia]. }
  assert (Hlen : d <= (if m =? 2 then 29
                       else if (m =? 4) || (m =? 6) || (m =? 9) || (m =? 11)
                            then 30 else 31)).
  { unfold daysInMonth in Hd.
    destruct (m =? 2); [destruct (isLeapYear _); lia|lia]. }
  destruct Hd as [Hd1 _]. clear Hm.
  set (mp := if 2 <? m then m - 3 else m + 9).
  assert (Hmp : 0 <= mp <= 11)
    by (subst mp; destruct (Z.ltb_spec 2 m); lia).
  assert (Em : m = if mp <? 10 then mp + 3 else mp - 9)
    by (subst mp; destruct (Z.ltb_spec 2 m);
        [destruct (Z.ltb_spec (m - 3) 10)|destruct (Z.ltb_spec (m + 9) 10)];
        lia).
  assert (Hoff : 153 * mp <= 5 * ((153 * mp + 2) / 5 + d - 1) + 2
                 < 153 * mp + 153 /\
                 (0 <= (153 * mp + 2) / 5 + d - 1 <= 364 \/
                  ((153 * mp + 2) / 5 + d - 1 = 365 /\ isLeap (yoe + 1)))).
  { destruct (Z.eq_dec d 29) as [E29|E29].
    - subst mp.
      repeat (destruct Hc as [->|Hc]); try subst m;
        cbn -[Z.div Z.modulo Z.mul] in *;
        (split; [euclid|]); try (left; euclid).
      right. split; [euclid|].
      now apply Hfeb.
    - clear Hfeb. subst mp.
      repeat (destruct Hc as [->|Hc]); try subst m;
        cbn -[Z.div Z.modulo Z.mul] in *;
        (split; [|left]); euclid. }
  destruct Hoff as [Ho1 Ho2].
  pose proof (civil_of_doe_char yoe mp d ltac:(lia) Hmp Hd1 Ho1 Ho2) as H.
  cbv zeta in H. rewrite <- Em in H.
  unfold doe_of_civil. fold mp.
  replace (yoe * 365 + yoe / 4 - yoe / 100 + (153 * mp + 2) / 5 + d - 1)
    with (yoe * 365 + yoe / 4 - yoe / 100 + ((153 * mp + 2) / 5 + d - 1))
    by ring.
  exact H.
Qed.

Lemma isLeapYear_era y k : isLeapYear (y + k * 400) = isLeapYear y.
Proof.
  unfold isLeapYear.
  replace ((y + k * 400) mod 4) with (y mod 4)
    by (replace (k * 400) with (k * 100 * 4) by ring;
        now rewrite Z_mod_plus_full).
  replace ((y + k * 400) mod 100) with (y mod 100)
    by (replace (k * 400) with (k * 4 * 100) by ring;
        now rewrite Z_mod_plus_full).
  now rewrite Z_mod_plus_full.
Qed.

Lemma daysInMonth_era y k m : daysInMonth (y + k * 400) m = daysInMonth y m.
Proof. unfold daysInMonth. now rewrite isLeapYear_era. Qed.

Lemma civil_from_days_inv z :
  exists y m d,
    civil_from_days z = (y, m, d) /\
    1 <= m <= 12 /\ 1 <= d <= daysInMonth y m /\
    days_from_civil y m d = z.
Proof.
  unfold civil_from_days.
  set (z' := z + 719468).
  assert (Hr : 0 <= z' mod 146097 < 146097) by (apply Z.mod_pos_bound; lia).
  destruct (civil_of_doe_spec _ Hr) as (yoe & m & d & E & Hy & Hm & Hd & Hdoe).
  rewrite E.
  exists (yoe + z' / 146097 * 400 + (if m <=? 2 then 1 else 0)), m, d.
  split; [reflexivity|]. split; [exact Hm|]. split.
  - replace (yoe + z' / 146097 * 400 + (if m <=? 2 then 1 else 0))
      with (yoe + (if m <=? 2 then 1 else 0) + z' / 146097 * 400) by ring.
    now rewrite daysInMonth_era.
  - unfold days_from_civil.
    replace (yoe + z' / 146097 * 400 + (if m <=? 2 then 1 else 0)
             - (if m <=? 2 then 1 else 0))
      with (yoe + z' / 146097 * 400) by ring.
    rewrite Z_div_plus_full by lia. rewrite Z_mod_plus_full.
    rewrite (Z.div_small yoe 400) by lia.
    rewrite (Z.mod_small yoe 400) by lia.
    rewrite Hdoe.
    pose proof (Z.div_mod z' 146097 ltac:(lia)). subst z'. lia.
Qed.

Lemma civil_from_days_of y m d :
  1 <= m <= 12 -> 1 <= d <= daysInMonth y m ->
  civil_from_days (days_from_civil y m d) = (y, m, d).
Proof.
  intros Hm Hd.
  set (c := if m <=? 2 then 1 else 0).
  set (y' := y - c).
  assert (Hyoe : 0 <= y' mod 400 < 400) by (apply Z.mod_pos_bound; lia).
  assert (Hdim : daysInMonth (y' mod 400 + c) m = daysInMonth y m).
  { pose proof (Z.div_mod y' 400 ltac:(lia)) as Hdm.
    rewrite <- (daysInMonth_era (y' mod 400 + c) (y' / 400) m).
    f_equal. subst y'. lia. }
  rewrite <- Hdim in Hd.
  destruct (doe_of_civil_spec _ _ _ Hyoe Hm Hd) as [Hb Ec].
  unfold civil_from_days, days_from_civil. fold c. fold y'.
  set (doe := doe_of_civil (y' mod 400) m d) in *.
  replace (y' / 400 * 146097 + doe - 719468 + 719468)
    with (doe + y' / 400 * 146097) by ring.
  rewrite Z_div_plus_full by lia. rewrite Z_mod_plus_full.
  rewrite (Z.div_small doe) by lia. rewrite (Z.mod_small doe) by lia.
  rewrite Ec. fold c.
  pose proof (Z.div_mod y' 400 ltac:(lia)).
  f_equal. f_equal. subst y'. lia.
Qed.

End Calendar.

(** ** Dates *)

Section Dates.
Import JS DateFns Spec.

Lemma msPerDay_value : msPerDay = 86400000.
Proof. reflexivity. Qed.

Lemma fields_of_date (t : Date) :
  civil_from_days (Day t) = (getFullYear t, getMonth t + 1, getDate t).
Proof.
  unfold getFullYear, getMonth, getDate.
  destruct (civil_from_days (Day t)) as [[y m] d]. f_equal. f_equal. lia.
Qed.

Lemma days_of_fields (t : Date) :
  days_from_civil (getFullYear t) (getMonth t + 1) (getDate t) = Day t.
Proof.
  destruct (civil_from_days_inv (Day t)) as (y & m & d & E & _ & _ & H).
  rewrite fields_of_date in E. injection E as Ey Em Ed.
  now rewrite Ey, Em, Ed.
Qed.

Lemma getMonth_bounds (t : Date) : 0 <= getMonth t <= 11.
Proof.
  destruct (civil_from_days_inv (Day t)) as (y & m & d & E & Hm & _ & _).
  rewrite fields_of_date in E. injection E as _ Em _. lia.
Qed.

Lemma getDate_bounds (t : Date) :
  1 <= getDate t <= daysInMonth (getFullYear t) (getMonth t + 1).
Proof.
  destruct (civil_from_days_inv (Day t)) as (y & m & d & E & _ & Hd & _).
  rewrite fields_of_date in E. injection E as Ey Em Ed.
  now rewrite Ey, Em, Ed.
Qed.

Lemma sameCalendarDay_Day (a b : Date) :
  sameCalendarDay a b <-> Day a = Day b.
Proof.
  unfold sameCalendarDay. split.
  - intros (Hy & Hm & Hd).
    rewrite <- (days_of_fields a), <- (days_of_fields b).
    now rewrite Hy, Hm, Hd.
  - intros H. unfold getFullYear, getMonth, getDate. now rewrite H.
Qed.

Lemma isSameDay_Day (a b : Date) : isSameDay a b = true <-> Day a = Day b.
Proof.
  unfold isSameDay, startOfDay. rewrite Z.eqb_eq, msPerDay_value. lia.
Qed.

Lemma isSameDay_sameCalendarDay (a b : Date) :
  isSameDay a b = true <-> sameCalendarDay a b.
Proof. now rewrite isSameDay_Day, sameCalendarDay_Day. Qed.

Lemma sameFields_sameCalendarDayIn (tz : Zone) (a b : Date) :
  Home.sameFields tz a b = true <-> sameCalendarDayIn tz a b.
Proof.
  unfold Home.sameFields, sameCalendarDayIn, sameCalendarDay,
    getFullYearIn, getMonthIn, getDateIn.
  rewrite !andb_true_iff, !Z.eqb_eq. tauto.
Qed.

Lemma sameCalendarDayIn_Day (tz : Zone) (a b : Date) :
  sameCalendarDayIn tz a b <-> Day (LocalTime tz a) = Day (LocalTime tz b).
Proof. apply sameCalendarDay_Day. Qed.

Lemma LocalTime_fixed (c : Z) (t : Date) : LocalTime (fixedZone c) t = t + c.
Proof. reflexivity. Qed.

Lemma UTC_fixed (c : Z) (l : Z) : UTC (fixedZone c) l = l - c.
Proof. reflexivity. Qed.

Lemma Day_shiftDays (t : Date) (k : Z) : Day (shiftDays t k) = Day t + k.
Proof.
  unfold Day, shiftDays. rewrite msPerDay_value.
  now rewrite Z_div_plus_full by lia.
Qed.

Lemma TimeWithinDay_shiftDays (t : Date) (k : Z) :
  TimeWithinDay (shiftDays t k) = TimeWithinDay t.
Proof. unfold TimeWithinDay, shiftDays. apply Z_mod_plus_full. Qed.

Lemma date_decompose (t : Date) : t = Day t * msPerDay + TimeWithinDay t.
Proof.
  unfold Day, TimeWithinDay. rewrite msPerDay_value.
  pose proof (Z.div_mod t 86400000 ltac:(lia)). lia.
Qed.

Lemma TimeWithinDay_bounds (t : Date) : 0 <= TimeWithinDay t < msPerDay.
Proof. apply Z.mod_pos_bound. reflexivity. Qed.

Lemma days_from_civil_linear y m d k :
  days_from_civil y m (d + k) = days_from_civil y m d + k.
Proof. unfold days_from_civil, doe_of_civil. lia. Qed.

(** A local time whose day of the month is set to the current one
    plus [k] moves by [k] whole days. *)
Lemma MakeDay_shift (t : Z) (k : Z) :
  MakeDay (getFullYear t) (getMonth t) (getDate t + k) * msPerDay
  + TimeWithinDay t
  = shiftDays t k.
Proof.
  unfold MakeDay.
  pose proof (getMonth_bounds t) as Hm.
  rewrite (Z.div_small (getMonth t) 12) by lia.
  rewrite (Z.mod_small (getMonth t) 12) by lia.
  rewrite Z.add_0_r.
  assert (E : days_from_civil (getFullYear t) (getMonth t + 1) 1
              = Day t + (1 - getDate t)).
  { rewrite <- (days_of_fields t), <- days_from_civil_linear.
    f_equal. lia. }
  rewrite E.
  unfold shiftDays. pose proof (date_decompose t) as Ht.
  rewrite msPerDay_value in *. lia.
Qed.

(** In every zone [setDate] with the current day of the month plus [k]
    moves the local time by [k] whole days; where the clocks never
    change the date itself moves by [k] whole days. *)
Lemma setDate_shiftDaysIn (tz : Zone) (t : Date) (k : Z) :
  setDate tz t (getDateIn tz t + k) = shiftDaysIn tz t k.
Proof.
  unfold setDate, getDateIn, shiftDaysIn. cbv zeta.
  now rewrite MakeDay_shift.
Qed.

Lemma shiftDaysIn_fixed (c : Z) (t : Date) (k : Z) :
  shiftDaysIn (fixedZone c) t k = shiftDays t k.
Proof.
  unfold shiftDaysIn. rewrite UTC_fixed, LocalTime_fixed.
  unfold shiftDays. lia.
Qed.

Lemma Day_newDate y mo d h mi :
  0 <= h * 3600000 + mi * 60000 < msPerDay ->
  Day (newDate y mo d h mi) = MakeDay y mo d.
Proof.
  intros H. unfold newDate, Day. rewrite msPerDay_value in *.
  rewrite <- Z.add_assoc, Z.add_comm, Z_div_plus_full by lia.
  rewrite Z.div_small by lia. lia.
Qed.

Lemma fields_of_newDate y mo d h mi :
  0 <= mo <= 11 -> 1 <= d <= daysInMonth y (mo + 1) ->
  0 <= h * 3600000 + mi * 60000 < msPerDay ->
  getFullYear (newDate y mo d h mi) = y /\
  getMonth (newDate y mo d h mi) = mo /\
  getDate (newDate y mo d h mi) = d.
Proof.
  intros Hm Hd Ht.
  unfold getFullYear, getMonth, getDate.
  rewrite (Day_newDate _ _ _ _ _ Ht). unfold MakeDay.
  rewrite (Z.div_small mo 12), (Z.mod_small mo 12), Z.add_0_r by lia.
  replace (days_from_civil y (mo + 1) 1 + d - 1)
    with (days_from_civil y (mo + 1) d)
    by (unfold days_from_civil, doe_of_civil; lia).
  rewrite civil_from_days_of by lia. repeat split. lia.
Qed.

Lemma getDay_week (a b : Date) (k : Z) :
  Day b = Day a + 7 * k -> getDay b = getDay a.
Proof.
  intros H. unfold getDay. rewrite H.
  replace (Day a + 7 * k + 4) with (Day a + 4 + k * 7) by ring.
  apply Z_mod_plus_full.
Qed.

End Dates.

(** ** The recurrence matcher *)

Section RecurrenceMatcher.

Import JS DateFns Spec MonthlyCalendar.

Variables (event : Event) (day : Date).

Lemma occursOn_absent :
  recurrence event = None -> occursOn event day = isSameDay (date event) day.
Proof. intros H. unfold occursOn. now rewrite H. Qed.

Lemma occursOn_unrecognized r :
  recurrence event = Some r ->
  ~ In (type r) ["daily"; "weekly"; "monthly"; "custom"] ->
  occursOn event day = isSameDay (date event) day.
Proof.
  intros H Hn. unfold occursOn. rewrite H.
  destruct (String.eqb_spec (type r) "none"); [reflexivity|].
  destruct (String.eqb_spec (type r) "daily") as [E|_];
    [exfalso; apply Hn; rewrite E; simpl; tauto|].
  destruct (String.eqb_spec (type r) "weekly") as [E|_];
    [exfalso; apply Hn; rewrite E; simpl; tauto|].
  destruct (String.eqb_spec (type r) "monthly") as [E|_];
    [exfalso; apply Hn; rewrite E; simpl; tauto|].
  destruct (String.eqb_spec (type r) "custom") as [E|_];
    [exfalso; apply Hn; rewrite E; simpl; tauto|].
  reflexivity.
Qed.

Lemma occursOn_weekly r :
  recurrence event = Some r -> type r = "weekly" ->
  occursOn event day =
    match days r with
    | Some (d :: ds) => includes (d :: ds) (format_EEEE day)
    | _ => isSameDay (date event) day
    end.
Proof. intros H E. unfold occursOn. now rewrite H, E. Qed.

Lemma occursOn_monthly r :
  recurrence event = Some r -> type r = "monthly" ->
  occursOn event day = (getDate day =? getDate (date event)).
Proof. intros H E. unfold occursOn. now rewrite H, E. Qed.

Lemma occursOn_custom r :
  recurrence event = Some r -> type r = "custom" ->
  occursOn event day =
    match interval r with
    | Some i =>
        if 0 <? i then
          Z.rem (Math_round_div (day - date event) msPerDay / 7) i =? 0
        else false
    | None => false
    end.
Proof.
  intros H E. unfold occursOn. rewrite H, E. simpl.
  destruct (interval r) as [i|]; [|reflexivity].
  destruct (Z.ltb_spec 0 i), (Z.eqb_spec i 0); try reflexivity. lia.
Qed.

End RecurrenceMatcher.

Section RecurrenceClaims.

Import JS DateFns Spec MonthlyCalendar.

(** C6. A daily event occurs on every day whatsoever, the days before
    its anchor date included: for a recurrence of type daily the
    matcher answers true without looking at the day. *)
Theorem daily_occurs_every_day (event : Event) (r : Recurrence) :
  recurrence event = Some r -> type r = "daily" ->
  forall day : Date, occursOn event day = true.
Proof. intros H E day. unfold occursOn. now rewrite H, E. Qed.

Lemma daily_occurs_every_day_witness :
  let anchor := newDate 2024 5 3 0 0 in
  let e := mkEvent "1" "Standup" anchor None None None None
                   (Some (mkRecurrence "daily" None None None)) in
  let before := newDate 2024 4 20 0 0 in
  before < anchor /\ occursOn e before = true.
Proof.
  split; [reflexivity|].
  apply (daily_occurs_every_day _ (mkRecurrence "daily" None None None));
    reflexivity.
Defined.

(** C7. The matcher is a total function, and for an event whose
    recurrence is absent, of type none, or of a type that is none of
    daily, weekly, monthly, custom, it answers true exactly on the days
    that are the same calendar day as the event's date. *)
Theorem single_occurrence_same_day (event : Event) (day : Date) :
  recurrence event = None \/
  (exists r, recurrence event = Some r /\
             (type r = "none" \/
              ~ In (type r) ["daily"; "weekly"; "monthly"; "custom"])) ->
  (occursOn event day = true <-> sameCalendarDay (date event) day) /\
  (occursOn event day = false <-> ~ sameCalendarDay (date event) day).
Proof.
  intros H.
  assert (E : occursOn event day = isSameDay (date event) day).
  { destruct H as [H|(r & H & [Hn|Hn])].
    - now apply occursOn_absent.
    - unfold occursOn. now rewrite H, Hn.
    - now apply (occursOn_unrecognized _ _ r). }
  rewrite E, <- isSameDay_sameCalendarDay.
  split; [tauto|]. now destruct (isSameDay (date event) day).
Qed.

Lemma single_occurrence_same_day_witness :
  let e := mkEvent "2" "Dentist" (newDate 2024 5 5 14 0) None None None
                   None (Some (mkRecurrence "yearly" None None None)) in
  occursOn e (newDate 2024 5 5 0 0) = true /\
  occursOn e (newDate 2024 5 6 0 0) = false.
Proof.
  set (e := mkEvent "2" "Dentist" (newDate 2024 5 5 14 0) None None None
                    None (Some (mkRecurrence "yearly" None None None))).
  assert (H : recurrence e = None \/
              (exists r, recurrence e = Some r /\
                 (type r = "none" \/
                  ~ In (type r) ["daily"; "weekly"; "monthly"; "custom"]))).
  { right. exists (mkRecurrence "yearly" None None None).
    split; [reflexivity|]. right. simpl.
    intros [A|[A|[A|[A|[]]]]]; discriminate A. }
  split.
  - apply (proj1 (single_occurrence_same_day e (newDate 2024 5 5 0 0) H)).
    repeat split; reflexivity.
  - apply (proj2 (single_occurrence_same_day e (newDate 2024 5 6 0 0) H)).
    intros (_ & _ & A). vm_compute in A. discriminate A.
Defined.

(** C8. A monthly event occurs on a day exactly when the day's day of
    the month equals the anchor's. Nothing is clamped: anchored on the
    31st, it occurs on no day of a 30-day month, and it occurs on the
    31st of every 31-day month of every year. *)
Theorem monthly_matches_day_of_month (event : Event) (r : Recurrence) :
  recurrence event = Some r -> type r = "monthly" ->
  (forall day : Date,
      occursOn event day = true <-> getDate day = getDate (date event)) /\
  (getDate (date event) = 31 ->
   (forall day : Date,
       In (getMonth day) thirtyDayMonths -> occursOn event day = false) /\
   (forall y mo : Z,
       In mo thirtyOneDayMonths ->
       getDate (newDate y mo 31 0 0) = 31 /\
       getMonth (newDate y mo 31 0 0) = mo /\
       getFullYear (newDate y mo 31 0 0) = y /\
       occursOn event (newDate y mo 31 0 0) = true)).
Proof.
  intros H E.
  assert (M : forall day, occursOn event day
                          = (getDate day =? getDate (date event)))
    by (intro; now apply (occursOn_monthly _ _ r)).
  split; [intro day; now rewrite M, Z.eqb_eq|].
  intros H31. split.
  - intros day Hin. rewrite M, H31. apply Z.eqb_neq.
    pose proof (getDate_bounds day) as Hb.
    assert (daysInMonth (getFullYear day) (getMonth day + 1) = 30).
    { unfold thirtyDayMonths in Hin. simpl in Hin.
      destruct Hin as [A|[A|[A|[A|[]]]]]; rewrite <- A; reflexivity. }
    lia.
  - intros y mo Hin.
    assert (F : getFullYear (newDate y mo 31 0 0) = y /\
                getMonth (newDate y mo 31 0 0) = mo /\
                getDate (newDate y mo 31 0 0) = 31).
    { apply fields_of_newDate.
      - unfold thirtyOneDayMonths in Hin. simpl in Hin. lia.
      - unfold thirtyOneDayMonths in Hin. simpl in Hin.
        destruct Hin as [A|[A|[A|[A|[A|[A|[A|[]]]]]]]]; rewrite <- A;
          split; (reflexivity || discriminate).
      - split; [discriminate | reflexivity]. }
    destruct F as (Fy & Fm & Fd).
    repeat split; try assumption. now rewrite M, Fd, H31.
Qed.

Lemma monthly_matches_day_of_month_witness :
  let e := mkEvent "3" "Rent" (newDate 2024 0 31 9 0) None None None None
                   (Some (mkRecurrence "monthly" None None None)) in
  getDate (date e) = 31 /\
  occursOn e (newDate 2024 3 30 0 0) = false /\
  occursOn e (newDate 2024 4 31 0 0) = true.
Proof.
  set (r := mkRecurrence "monthly" None None None).
  set (e := mkEvent "3" "Rent" (newDate 2024 0 31 9 0) None None None None
                    (Some r)).
  pose proof (monthly_matches_day_of_month e r eq_refl eq_refl) as [_ H].
  specialize (H eq_refl) as [H30 H31].
  split; [reflexivity|]. split.
  - apply H30. simpl. tauto.
  - apply (H31 2024 4). simpl. tauto.
Defined.

End RecurrenceClaims.

Section WeeklyAndCustom.

Import JS DateFns Spec MonthlyCalendar.

Lemma weekdayName_Day (a b : Date) :
  Day a = Day b -> weekdayName a = weekdayName b.
Proof.
  intros H. unfold weekdayName, format_EEEE, getDay. now rewrite H.
Qed.

(** C1, as stated, fails: a weekly event without days, anchored on
    Monday 3 June 2024, does not occur on Monday 10 June 2024. *)
Lemma weekly_no_days_counterexample :
  ~ (forall (event : Event) (r : Recurrence) (day : Date),
        recurrence event = Some r -> type r = "weekly" ->
        days r = None \/ days r = Some [] ->
        weekdayName day = weekdayName (date event) ->
        occursOn event day = true).
Proof.
  intros H.
  specialize (H (mkEvent "1" "Sync" (newDate 2024 5 3 0 0) None None None
                         None (Some (mkRecurrence "weekly" None None None)))
                (mkRecurrence "weekly" None None None)
                (newDate 2024 5 10 0 0)
                eq_refl eq_refl (or_introl eq_refl) eq_refl).
  vm_compute in H. discriminate H.
Qed.

(** C1, amended. A weekly event whose days are empty or absent occurs
    exactly on the calendar day of its anchor date: on that day it
    does occur, so it never matches no day at all, and every day it
    occurs on has the anchor's weekday name. It does not occur on the
    other days of that weekday: whole weeks before or after the anchor
    the weekday name is the anchor's and the answer is false. *)
Theorem weekly_no_days_anchor_day_only
        (event : Event) (r : Recurrence) (day : Date) :
  recurrence event = Some r -> type r = "weekly" ->
  days r = None \/ days r = Some [] ->
  (occursOn event day = true <-> sameCalendarDay (date event) day) /\
  (occursOn event day = true ->
   weekdayName day = weekdayName (date event)) /\
  occursOn event (date event) = true /\
  (forall k : Z, k <> 0 ->
     weekdayName (shiftDays (date event) (7 * k))
     = weekdayName (date event) /\
     occursOn event (shiftDays (date event) (7 * k)) = false).
Proof.
  intros H E Hd.
  assert (M : forall d, occursOn event d = isSameDay (date event) d).
  { intro d. rewrite (occursOn_weekly _ _ r H E).
    destruct Hd as [-> | ->]; reflexivity. }
  rewrite !M. split; [apply isSameDay_sameCalendarDay|]. split.
  - intros S. apply isSameDay_Day in S. symmetry.
    now apply weekdayName_Day.
  - split; [now apply isSameDay_Day|].
    intros k Hk. split.
    + unfold weekdayName, format_EEEE.
      now rewrite (getDay_week (date event) _ k (Day_shiftDays _ _)).
    + rewrite M. apply not_true_is_false. intros S.
      apply isSameDay_Day in S. rewrite Day_shiftDays in S. lia.
Qed.

Lemma weekly_no_days_anchor_day_only_witness :
  let e := mkEvent "1" "Sync" (newDate 2024 5 3 10 0) None None None None
                   (Some (mkRecurrence "weekly" (Some []) None None)) in
  occursOn e (date e) = true.
Proof.
  exact (proj1 (proj2 (proj2
    (weekly_no_days_anchor_day_only
       (mkEvent "1" "Sync" (newDate 2024 5 3 10 0) None None None None
                (Some (mkRecurrence "weekly" (Some []) None None)))
       (mkRecurrence "weekly" (Some []) None None)
       (newDate 2024 5 3 0 0) eq_refl eq_refl (or_intror eq_refl))))).
Defined.

(** The rounded day difference that the custom branch computes, for a
    grid day: the calendar day difference, less one when the anchor's
    time of day is past noon. *)
Lemma custom_diffInDays (anchor day : Date) :
  isCalendarDay day ->
  Math_round_div (day - anchor) msPerDay =
    dayDelta anchor day
    - (if 2 * TimeWithinDay anchor <=? msPerDay then 0 else 1).
Proof.
  unfold isCalendarDay, Math_round_div, dayDelta. intros Hd.
  pose proof (date_decompose day) as D1.
  pose proof (date_decompose anchor) as D2.
  pose proof (TimeWithinDay_bounds anchor) as B.
  rewrite Hd in D1. rewrite msPerDay_value in *.
  set (k := Day day) in *. set (a := Day anchor) in *.
  set (t := TimeWithinDay anchor) in *.
  rewrite D1, D2 at 1.
  destruct (Z.leb_spec (2 * t) 86400000).
  - symmetry. apply (Z.div_unique _ _ _ (86400000 - 2 * t)); lia.
  - symmetry. apply (Z.div_unique _ _ _ (3 * 86400000 - 2 * t)); lia.
Qed.



Lemma custom_without_interval (event : Event) (r : Recurrence) (day : Date) :
  recurrence event = Some r -> type r = "custom" ->
  interval r = None \/ (exists i, interval r = Some i /\ i <= 0) ->
  occursOn event day = false.
Proof.
  intros H E Hi. rewrite (occursOn_custom _ _ r H E).
  destruct Hi as [-> | (i & -> & Hi)]; [reflexivity|].
  now destruct (Z.ltb_spec 0 i); [lia|].
Qed.

(** Past noon the rounded difference is one day short, and the grid
    day of the anchor date itself falls into week -1: with an interval
    of 2 or more the event does not show on its own anchor date. *)
Lemma custom_past_noon_misses_anchor_day
      (event : Event) (r : Recurrence) (i : Z) :
  recurrence event = Some r -> type r = "custom" ->
  interval r = Some i -> 2 <= i ->
  msPerDay < 2 * TimeWithinDay (date event) ->
  occursOn event (startOfDay (date event)) = false.
Proof.
  intros H E Hi Hi2 Hn. rewrite (occursOn_custom _ _ r H E), Hi.
  assert (Hd : isCalendarDay (startOfDay (date event))).
  { unfold isCalendarDay, TimeWithinDay, startOfDay. apply Z_mod_mult. }
  rewrite (custom_diffInDays _ _ Hd).
  assert (Ed : dayDelta (date event) (startOfDay (date event)) = 0).
  { unfold dayDelta, startOfDay, Day at 1. rewrite msPerDay_value.
    rewrite Z_div_mult by lia. lia. }
  rewrite Ed.
  replace (2 * TimeWithinDay (date event) <=? msPerDay) with false
    by (symmetry; apply Z.leb_gt; lia).
  replace (0 <? i) with true by (symmetry; apply Z.ltb_lt; lia).
  change ((0 - 1) / 7) with (-1).
  apply Z.eqb_neq. change (-1) with (- (1)).
  rewrite Z.rem_opp_l', Z.rem_small by lia. discriminate.
Qed.

(** C3 at its failing input. A custom event every 2 weeks whose anchor
    is 3 June 2024 at 15:00 is asked about the grid day 3 June 2024:
    the day is the anchor's calendar day, the week number of the day
    difference is 0, and yet the matcher answers false; it answers
    true one week later. *)
Theorem custom_afternoon_anchor_missed :
  let e := mkEvent "4" "Review" (newDate 2024 5 3 15 0) None None None None
                   (Some (mkRecurrence "custom" None (Some 2) None)) in
  let day := newDate 2024 5 3 0 0 in
  isCalendarDay day /\
  Day (date e) = Day day /\
  (dayDelta (date e) day / 7) mod 2 = 0 /\
  occursOn e day = false /\
  occursOn e (shiftDays day 7) = true.
Proof. vm_compute. repeat split; reflexivity. Qed.

End WeeklyAndCustom.

(** ** Time strings *)

Section TimeStrings.

Import JS Spec Home.

Ltac by_cases_on c :=
  destruct c as [[] [] [] [] [] [] [] []]; try discriminate; reflexivity.

Lemma digit_not_whitespace c : isDigit c = true -> isWhiteSpace c = false.
Proof. by_cases_on c. Qed.

Lemma digit_not_colon c : isDigit c = true -> Ascii.eqb c ":" = false.
Proof. by_cases_on c. Qed.

Lemma digit_not_sign c :
  isDigit c = true -> Ascii.eqb c "-" = false /\ Ascii.eqb c "+" = false.
Proof. split; revert H; by_cases_on c. Qed.

Lemma digit_not_I c : isDigit c = true -> Ascii.eqb c "I" = false.
Proof. by_cases_on c. Qed.

Lemma digit_not_radix c :
  isDigit c = true ->
  (Ascii.eqb c "x" || Ascii.eqb c "X") = false /\
  (Ascii.eqb c "o" || Ascii.eqb c "O") = false /\
  (Ascii.eqb c "b" || Ascii.eqb c "B") = false.
Proof. repeat split; revert H; by_cases_on c. Qed.

Lemma digitValue_digit c :
  isDigit c = true ->
  digitValue 10 c = Some (Z.of_N (N_of_ascii c) - 48).
Proof. by_cases_on c. Qed.

Lemma dropWhile_none (p : ascii -> bool) l :
  (forall c, In c l -> p c = false) -> dropWhile p l = l.
Proof.
  destruct l as [|c r]; [reflexivity|]. intros H. simpl.
  now rewrite (H c (or_introl eq_refl)).
Qed.

Lemma allDigits_In s c :
  allDigits s = true -> In c (list_ascii_of_string s) -> isDigit c = true.
Proof.
  induction s as [|a r IH]; simpl; [tauto|].
  intros H [<-|Hin]; apply andb_prop in H as [Ha Hr]; auto.
Qed.

Lemma trimChars_digits s :
  allDigits s = true ->
  trimChars (list_ascii_of_string s) = list_ascii_of_string s.
Proof.
  intros H. unfold trimChars.
  rewrite (dropWhile_none _ (list_ascii_of_string s)).
  - rewrite dropWhile_none; [apply rev_involutive|].
    intros c Hc. apply in_rev in Hc.
    apply digit_not_whitespace. eauto using allDigits_In.
  - intros c Hc. apply digit_not_whitespace. eauto using allDigits_In.
Qed.

Lemma digits_allDigits s : forall acc len,
  allDigits s = true ->
  digits 10 acc len (list_ascii_of_string s)
  = (decimalValue acc s, (len + String.length s)%nat, []).
Proof.
  induction s as [|c r IH]; intros acc len H; simpl.
  - now rewrite Nat.add_0_r.
  - simpl in H. apply andb_prop in H as [Hc Hr].
    rewrite (digitValue_digit _ Hc), (IH _ _ Hr).
    now rewrite Nat.add_succ_r.
Qed.

Lemma Qred_integer z : Qred (z # 1) = z # 1.
Proof. apply Qcanon.Qred_identity. simpl. apply Z.gcd_1_r. Qed.

Lemma mul_ofZ a b : mul (ofZ a) (ofZ b) = ofZ (a * b).
Proof.
  unfold mul, ofZ, inject_Z, Qmult. cbn [Qnum Qden Pos.mul].
  now rewrite Qred_integer.
Qed.

Lemma add_ofZ a b : add (ofZ a) (ofZ b) = ofZ (a + b).
Proof.
  unfold add, ofZ, inject_Z, Qplus. cbn [Qnum Qden Pos.mul].
  now rewrite !Z.mul_1_r, Qred_integer.
Qed.

Lemma decimalValue_nonneg s : forall acc,
  allDigits s = true -> 0 <= acc -> 0 <= decimalValue acc s.
Proof.
  induction s as [|c r IH]; intros acc H Ha; cbn [decimalValue];
    [exact Ha|].
  cbn [allDigits] in H. apply andb_prop in H as [Hc Hr]. apply (IH _ Hr).
  assert (48 <= Z.of_N (N_of_ascii c)); [|lia].
  revert Hc. destruct c as [[] [] [] [] [] [] [] []];
    try discriminate; intros _; vm_compute; discriminate.
Qed.

(** [Number] on a non-empty run of decimal digits is its value. *)
Lemma Number_numeral s :
  isNumeral s = true -> Number s = ofZ (decimalValue 0 s).
Proof.
  unfold isNumeral. intros H. apply andb_prop in H as [Hne Hd].
  unfold Number. rewrite (trimChars_digits _ Hd).
  destruct s as [|c r]; [discriminate|].
  pose proof Hd as Hd'. simpl in Hd'. apply andb_prop in Hd' as [Hc Hr].
  assert (Hp : radixPrefix (list_ascii_of_string (String c r)) = None).
  { simpl. destruct r as [|p r']; [reflexivity|]. simpl.
    simpl in Hr. apply andb_prop in Hr as [Hp _].
    destruct (digit_not_radix p Hp) as (-> & -> & ->).
    now destruct (Ascii.eqb c "0"). }
  rewrite Hp. change (list_ascii_of_string (String c r))
    with (c :: list_ascii_of_string r) at 1.
  destruct (digit_not_sign c Hc) as [-> ->].
  unfold unsignedDecimal.
  assert (Hi : String.eqb
                 (string_of_list_ascii (list_ascii_of_string (String c r)))
                 "Infinity" = false).
  { rewrite string_of_list_ascii_of_string. simpl.
    now rewrite (digit_not_I c Hc). }
  rewrite Hi, (digits_allDigits _ 0 0%nat Hd).
  cbn [String.length Nat.add exponent Z.of_nat Z.opp].
  unfold ofZ. f_equal. unfold pow10, inject_Z, Qplus, Qmult.
  cbn [Qnum Qden Pos.mul Z.leb Z.compare Z.pow Z.pow_pos Pos.iter Z.mul].
  now rewrite !Z.mul_1_r, Z.add_0_r, Qred_integer.
Qed.

Lemma split_no_colon s :
  allDigits s = true -> split ":" s = [s].
Proof.
  induction s as [|c r IH]; intros H; simpl; [reflexivity|].
  simpl in H. apply andb_prop in H as [Hc Hr].
  now rewrite (digit_not_colon c Hc), (IH Hr).
Qed.

Lemma split_time hh mm :
  allDigits hh = true -> allDigits mm = true ->
  split ":" (hh ++ ":" ++ mm) = [hh; mm].
Proof.
  intros Hh Hm. induction hh as [|c r IH]; simpl.
  - now rewrite (split_no_colon _ Hm).
  - simpl in Hh. apply andb_prop in Hh as [Hc Hr].
    rewrite (digit_not_colon c Hc). simpl in IH. now rewrite (IH Hr).
Qed.

Lemma timeToMinutes_numerals hh mm :
  isNumeral hh = true -> isNumeral mm = true ->
  timeToMinutes (hh ++ ":" ++ mm)
  = ofZ (decimalValue 0 hh * 60 + decimalValue 0 mm).
Proof.
  intros Hh Hm. unfold timeToMinutes.
  pose proof Hh as Hh'. pose proof Hm as Hm'.
  unfold isNumeral in Hh', Hm'.
  apply andb_prop in Hh' as [_ Dh]. apply andb_prop in Hm' as [_ Dm].
  rewrite (split_time _ _ Dh Dm). simpl.
  now rewrite (Number_numeral _ Hh), (Number_numeral _ Hm), mul_ofZ, add_ofZ.
Qed.

(** C5, as stated, fails: the string 25:99 is not two in-range
    integers, and the function returns the number 1599 for it. *)
Lemma timeToMinutes_counterexample :
  ~ (forall t : string,
        ~ parseableInRange t -> forall q : Q, timeToMinutes t <> Finite q).
Proof.
  intros H. apply (H "25:99" ) with (q := inject_Z 1599);
    [|vm_compute; reflexivity].
  intros (hh & mm & E & Hh & Hm & _ & Hr).
  unfold isNumeral in Hh. apply andb_prop in Hh as [_ Hh].
  destruct hh as [|c1 hh]; [discriminate E|].
  injection E as <- E.
  destruct hh as [|c2 hh]; [discriminate E|].
  injection E as <- E.
  destruct hh as [|c3 hh].
  - injection E as <-. vm_compute in Hr. destruct Hr as [_ Hr]. now apply Hr.
  - injection E as <- E. simpl in Hh. discriminate Hh.
Qed.

(** C5, amended. For a time string of two runs of decimal digits
    around a colon, with hours at most 23 and minutes at most 59, the
    function returns the integer 60 * hours + minutes, which lies in
    [0, 1439]. The function has no failure: on other strings it still
    returns what [hours * 60 + minutes] evaluates to, such as the
    out-of-range number 1599 for 25:99, or NaN for abc. *)
Theorem timeToMinutes_in_range (hh mm : string) :
  isNumeral hh = true -> isNumeral mm = true ->
  decimalValue 0 hh <= 23 -> decimalValue 0 mm <= 59 ->
  (timeToMinutes (hh ++ ":" ++ mm)
   = ofZ (decimalValue 0 hh * 60 + decimalValue 0 mm) /\
   0 <= decimalValue 0 hh * 60 + decimalValue 0 mm <= 1439) /\
  timeToMinutes "25:99" = ofZ 1599 /\
  timeToMinutes "abc" = NaN.
Proof.
  intros Hh Hm Bh Bm. split; [split|split; reflexivity].
  - now apply timeToMinutes_numerals.
  - unfold isNumeral in Hh, Hm.
    apply andb_prop in Hh as [_ Dh]. apply andb_prop in Hm as [_ Dm].
    pose proof (decimalValue_nonneg hh 0 Dh ltac:(lia)).
    pose proof (decimalValue_nonneg mm 0 Dm ltac:(lia)). lia.
Qed.

Lemma timeToMinutes_in_range_witness :
  timeToMinutes "09:30" = ofZ 570 /\ 0 <= 570 <= 1439.
Proof.
  exact (proj1 (timeToMinutes_in_range "09" "30" eq_refl eq_refl
                  ltac:(vm_compute; discriminate)
                  ltac:(vm_compute; discriminate))).
Defined.

End TimeStrings.

(** ** The conflict detector *)

Section ConflictDetector.

Import JS Spec Home.

Lemma lt_irrefl (a : number) : lt a a = false.
Proof. destruct a; simpl; try reflexivity. apply Z.ltb_irrefl. Qed.

Lemma overlaps_spec cs ce es ee :
  overlaps cs ce es ee = true <-> rangesOverlap cs ce es ee.
Proof. unfold overlaps, rangesOverlap. apply andb_true_iff. Qed.

Lemma overlaps_touching cs ce es ee :
  timeToMinutes cs = timeToMinutes ee -> overlaps cs ce es ee = false.
Proof. intros H. unfold overlaps. now rewrite H, lt_irrefl. Qed.

Lemma conflicts_exists (keep : Event -> bool) cs ce evs :
  existsb (fun e => overlaps cs ce (startTime e) (endTime e))
          (filter keep evs) = true <->
  exists e, In e evs /\ keep e = true /\
            rangesOverlap cs ce (startTime e) (endTime e).
Proof.
  rewrite existsb_exists. split.
  - intros (e & Hin & Ho). apply filter_In in Hin as [Hin Hk].
    exists e. now rewrite <- overlaps_spec.
  - intros (e & Hin & Hk & Ho). exists e.
    rewrite filter_In, overlaps_spec. tauto.
Qed.

Lemma checkForConflicts_iff tz s event targetDate :
  checkForConflicts tz s event targetDate = true <->
  exists e, In e (events s) /\
            sameCalendarDayIn tz (date e) targetDate /\
            id e <> id event /\
            rangesOverlap (startTime event) (endTime event)
                          (startTime e) (endTime e).
Proof.
  unfold checkForConflicts. rewrite conflicts_exists.
  split.
  - intros (e & Hin & H & Ho). exists e. split; [exact Hin|].
    destruct (String.eqb_spec (id e) (id event)); [discriminate|].
    apply sameFields_sameCalendarDayIn in H. tauto.
  - intros (e & Hin & Hs & Hid & Ho). exists e. split; [exact Hin|].
    destruct (String.eqb_spec (id e) (id event)); [contradiction|].
    split; [|exact Ho]. now apply sameFields_sameCalendarDayIn.
Qed.

Lemma checkForEventConflicts_iff tz s eventData :
  checkForEventConflicts tz s eventData = true <->
  exists e, In e (events s) /\
            sameCalendarDayIn tz (date e) (date eventData) /\
            (isNewEvent s = false -> id e <> id eventData) /\
            rangesOverlap (startTime eventData) (endTime eventData)
                          (startTime e) (endTime e).
Proof.
  unfold checkForEventConflicts. rewrite conflicts_exists.
  split.
  - intros (e & Hin & H & Ho). exists e. split; [exact Hin|].
    destruct (isNewEvent s); simpl in H.
    + apply sameFields_sameCalendarDayIn in H.
      split; [exact H|]. split; [intros A; discriminate A|exact Ho].
    + destruct (String.eqb_spec (id e) (id eventData)); [discriminate|].
      apply sameFields_sameCalendarDayIn in H. tauto.
  - intros (e & Hin & Hs & Hid & Ho). exists e. split; [exact Hin|].
    split; [|exact Ho].
    apply sameFields_sameCalendarDayIn in Hs.
    destruct (isNewEvent s); simpl; [exact Hs|].
    destruct (String.eqb_spec (id e) (id eventData)); [|exact Hs].
    now elim (Hid eq_refl).
Qed.




End ConflictDetector.

(** ** Relocation by drag and drop *)

Section Relocation.

Import JS Spec Home.

(** Read in the zone of offset zero, the day difference that
    [updateEventDate] computes towards a grid day is the calendar day
    difference. *)
Lemma ceil_diff_dayDelta (anchor newDay : Date) :
  isCalendarDay newDay ->
  Math_ceil_div (newDay - anchor) (1000 * 60 * 60 * 24)
  = dayDelta anchor newDay.
Proof.
  unfold isCalendarDay, Math_ceil_div, dayDelta. intros Hd.
  pose proof (date_decompose newDay) as D1.
  pose proof (date_decompose anchor) as D2.
  pose proof (TimeWithinDay_bounds anchor) as B.
  rewrite Hd in D1. rewrite msPerDay_value in *.
  change (1000 * 60 * 60 * 24) with 86400000.
  set (k := Day newDay) in *. set (a := Day anchor) in *.
  set (t := TimeWithinDay anchor) in *.
  assert (E : (- (newDay - anchor)) / 86400000 = a - k)
    by (symmetry; apply (Z.div_unique _ _ _ t); lia).
  rewrite E. lia.
Qed.

(** In a zone whose clocks never change, that difference is the
    difference of the local calendar days. *)
Lemma ceil_diff_dayDeltaIn (c : Z) (anchor newDay : Date) :
  isCalendarDayIn (fixedZone c) newDay ->
  Math_ceil_div (newDay - anchor) (1000 * 60 * 60 * 24)
  = dayDeltaIn (fixedZone c) anchor newDay.
Proof.
  intros Hd. unfold dayDeltaIn.
  rewrite <- (ceil_diff_dayDelta _ _ Hd), !LocalTime_fixed.
  f_equal. lia.
Qed.

(** In every zone the relocated event is the event moved by the
    computed number of days, at its local time of day. *)
Lemma relocated_shiftDaysIn (tz : Zone) (event : Event) (newDate : Date) :
  relocated tz event newDate
  = withDate event
      (shiftDaysIn tz (date event)
         (Math_ceil_div (newDate - date event) (1000 * 60 * 60 * 24))).
Proof. unfold relocated, getTime. now rewrite setDate_shiftDaysIn. Qed.

Lemma relocated_eq (c : Z) (event : Event) (newDay : Date) :
  isCalendarDayIn (fixedZone c) newDay ->
  relocated (fixedZone c) event newDay
  = withDate event
      (shiftDays (date event)
         (dayDeltaIn (fixedZone c) (date event) newDay)).
Proof.
  intros Hd.
  now rewrite relocated_shiftDaysIn, shiftDaysIn_fixed,
    (ceil_diff_dayDeltaIn _ _ _ Hd).
Qed.

(** Where the clocks never change, a drag to a grid day moves the date
    by the calendar day difference: the new date is on the target day
    at the old time of day, and every other field is kept. *)
Lemma relocated_without_clock_change
      (c : Z) (event : Event) (newDay : Date) :
  let tz := fixedZone c in
  isCalendarDayIn tz newDay ->
  let updatedEvent := relocated tz event newDay in
  date updatedEvent
    = shiftDays (date event) (dayDeltaIn tz (date event) newDay) /\
  TimeWithinDay (LocalTime tz (date updatedEvent))
    = TimeWithinDay (LocalTime tz (date event)) /\
  sameCalendarDayIn tz (date updatedEvent) newDay /\
  id updatedEvent = id event /\
  title updatedEvent = title event /\
  startTime updatedEvent = startTime event /\
  endTime updatedEvent = endTime event /\
  description updatedEvent = description event /\
  color updatedEvent = color event /\
  recurrence updatedEvent = recurrence event.
Proof.
  intros tz Hd updatedEvent. subst updatedEvent tz.
  rewrite (relocated_eq _ _ _ Hd). cbn [withDate date].
  split; [reflexivity|]. split; [|split; [|now repeat split]].
  - rewrite !LocalTime_fixed.
    replace (shiftDays (date event)
               (dayDeltaIn (fixedZone c) (date event) newDay) + c)
      with (shiftDays (date event + c)
              (dayDeltaIn (fixedZone c) (date event) newDay))
      by (unfold shiftDays; lia).
    apply TimeWithinDay_shiftDays.
  - apply sameCalendarDayIn_Day. rewrite !LocalTime_fixed.
    replace (shiftDays (date event)
               (dayDeltaIn (fixedZone c) (date event) newDay) + c)
      with (shiftDays (date event + c)
              (dayDeltaIn (fixedZone c) (date event) newDay))
      by (unfold shiftDays; lia).
    rewrite Day_shiftDays. unfold dayDeltaIn, dayDelta.
    rewrite !LocalTime_fixed. lia.
Qed.

(** C4. The relocation of [updateEventDate] fails across a clock
    change. In New York an event on 2 November 2024 at 00:00, as a
    click on that grid day creates it, is dragged to the grid day
    4 November. The calendar day difference is 2 and the date shifted
    by 2 days is the target day; yet the clocks go back in between,
    the time difference is 49 hours, [Math.ceil] makes 3 days of it,
    and the updated event is on 5 November at 00:00: not the date
    shifted by the day difference, and not on the target day. *)
Theorem relocation_across_clock_change :
  let tz := newYork2024 in
  let event := mkEvent "a" "A" (dateIn tz 2024 10 2 0 0) "09:00" "10:00"
                       None None None in
  let newDay := dateIn tz 2024 10 4 0 0 in
  let updatedEvent := relocated tz event newDay in
  isCalendarDayIn tz newDay /\
  dayDeltaIn tz (date event) newDay = 2 /\
  shiftDaysIn tz (date event) 2 = newDay /\
  getTime newDay - getTime (date event) = 49 * 3600000 /\
  date updatedEvent = shiftDaysIn tz (date event) 3 /\
  date updatedEvent = dateIn tz 2024 10 5 0 0 /\
  date updatedEvent
    <> shiftDaysIn tz (date event) (dayDeltaIn tz (date event) newDay) /\
  ~ sameCalendarDayIn tz (date updatedEvent) newDay /\
  updateEventDate tz [event] "a" newDay
    = [withDate event (dateIn tz 2024 10 5 0 0)].
Proof.
  cbv zeta.
  repeat (split; [vm_compute; reflexivity|]).
  split; [vm_compute; discriminate|].
  split; [|vm_compute; reflexivity].
  intros (_ & _ & A). vm_compute in A. discriminate A.
Qed.

End Relocation.

(** ** Form validation *)

Section FormValidation.

Import JS Spec EventForm.

Lemma firstFailing_None rs (e : EventData) :
  firstFailing rs e = None <->
  forall fails msg, In (fails, msg) rs -> fails e = false.
Proof.
  induction rs as [|[f m] rest IH]; simpl.
  - split; [intros _ ? ? []|reflexivity].
  - destruct (f e) eqn:E.
    + split; [discriminate|]. intros H.
      specialize (H f m (or_introl eq_refl)). congruence.
    + rewrite IH. split.
      * intros H fails msg [A|A]; [congruence|eauto].
      * intros H fails msg A. eauto.
Qed.

Lemma firstFailing_Some rs (e : EventData) msg :
  firstFailing rs e = Some msg ->
  exists fails, In (fails, msg) rs /\ fails e = true.
Proof.
  induction rs as [|[f m] rest IH]; simpl; [discriminate|].
  destruct (f e) eqn:E.
  - intros [= <-]. eauto.
  - intros H. destruct (IH H) as (g & Hin & Hg). eauto.
Qed.

Lemma validateForm_firstFailing (event : EventData) :
  validateForm event =
    match firstFailing rules event with
    | Some msg => invalid msg
    | None => mkValidation true None
    end.
Proof.
  unfold validateForm, rules, firstFailing, falsy_string.
  destruct (String.eqb (trim (title event)) ""); [reflexivity|].
  destruct (date event) as [dt|]; [|reflexivity].
  destruct (String.eqb (startTime event) ""); [reflexivity|].
  destruct (String.eqb (endTime event) ""); [reflexivity|].
  destruct (string_ge (startTime event) (endTime event)); [reflexivity|].
  destruct (String.eqb (type (recurrence event)) "weekly"),
           (days (recurrence event)) as [[|wd wds]|];
    cbn [andb List.length Z.of_nat Z.eqb]; try reflexivity;
    destruct (String.eqb (type (recurrence event)) "custom"),
             (interval (recurrence event)) as [i|];
    cbn [andb]; try reflexivity;
    destruct (Z.eqb_spec i 0), (Z.ltb_spec i 1);
    cbn [orb]; try reflexivity; lia.
Qed.

(** C9. A click on Save is stopped exactly when one of the validation
    rules fails, and then the alert shows the message of the first
    failing rule in the fixed order: title empty once trimmed, date
    missing, start time missing, end time missing, start time not
    before end time (compared as strings), weekly recurrence without
    a selected day, custom recurrence with an interval below 1. The
    outcome is a function of the form's content. *)
Theorem save_blocked_by_first_failing_rule (event : EventData) :
  handleSave event =
    match firstFailing rules event with
    | Some msg => Alert (Some msg)
    | None => Saved event
    end /\
  (handleSave event = Saved event <->
   forall fails msg, In (fails, msg) rules -> fails event = false) /\
  ((exists fails msg, In (fails, msg) rules /\ fails event = true) <->
   exists msg, handleSave event = Alert (Some msg) /\
               firstFailing rules event = Some msg).
Proof.
  assert (E : handleSave event =
              match firstFailing rules event with
              | Some msg => Alert (Some msg)
              | None => Saved event
              end).
  { unfold handleSave. rewrite validateForm_firstFailing.
    now destruct (firstFailing rules event). }
  split; [exact E|]. rewrite E, <- firstFailing_None. split.
  - destruct (firstFailing rules event); split; congruence.
  - split.
    + intros (fails & msg & Hin & Hf).
      destruct (firstFailing rules event) as [m|] eqn:F; [eauto|].
      rewrite firstFailing_None in F. rewrite (F _ _ Hin) in Hf.
      discriminate.
    + intros (msg & _ & F).
      destruct (firstFailing_Some _ _ _ F) as (f & Hin & Hf).
      eauto.
Qed.

End FormValidation.

(** ** Drops handled by the calendar itself *)

Section SelfManagedDrop.

Import JS Spec MonthlyCalendar.

Lemma find_id_eq (evs : list Event) (eventId : string) (event : Event) :
  find (fun e => String.eqb (id e) eventId) evs = Some event ->
  id event = eventId.
Proof.
  intros H. apply find_some in H as [_ H]. now apply String.eqb_eq.
Qed.

(** Without a host drag handler, a drop of a known event on a day
    (the day cell forwards non-empty ids only) hands to
    [handleAddEvent] a copy of the event with the drop day itself as
    its date and nothing else changed: the date is not shifted by a
    day difference, so the copy carries the drop day's time of day.
    No conflict test is on the way. Outside edit mode the copy is
    appended to the local list; in edit mode it replaces the events
    that carry the selected event's id. *)
Lemma onDrop_hands_over_copy
      (events : list Event) (now : Z) (s : State) (day : Date)
      (eventId : string) (event : Event) :
  eventId <> "" ->
  find (fun e => String.eqb (id e) eventId) (eventsToUse events s)
    = Some event ->
  let updatedEvent := withDate event day in
  onDrop false events now s day eventId
    = Internal (handleAddEvent now s updatedEvent) /\
  date updatedEvent = day /\
  (id updatedEvent = id event /\ title updatedEvent = title event /\
   startTime updatedEvent = startTime event /\
   endTime updatedEvent = endTime event /\
   description updatedEvent = description event /\
   color updatedEvent = color event /\
   recurrence updatedEvent = recurrence event) /\
  (TimeWithinDay (date event) <> TimeWithinDay day ->
   date updatedEvent
   <> shiftDays (date event) (dayDelta (date event) day)) /\
  localEvents (handleAddEvent now s updatedEvent)
    = match isEditMode s, selectedEvent s with
      | true, Some sel =>
          map (fun e => if String.eqb (id e) (id sel) then updatedEvent
                        else e)
              (localEvents s)
      | _, _ => (localEvents s ++ [updatedEvent])%list
      end.
Proof.
  intros Hne Hfind updatedEvent. subst updatedEvent.
  split; [unfold onDrop; now rewrite Hfind|].
  split; [reflexivity|]. split; [now repeat split|]. split.
  - cbn [date withDate]. intros Ht E. apply Ht.
    now rewrite E, TimeWithinDay_shiftDays.
  - unfold handleAddEvent.
    assert (Hid : falsy_string (id (withDate event day)) = false).
    { cbn [id withDate]. rewrite (find_id_eq _ _ _ Hfind).
      unfold falsy_string. now apply String.eqb_neq. }
    rewrite Hid.
    destruct (isEditMode s), (selectedEvent s); reflexivity.
Qed.

(** C10. The self-managed drop does not replace the date of the
    dropped event. The calendar holds event [a] of 3 June 2024, 09:00,
    and event [b] of 4 June, no host handler and no host events, the
    form never opened; [a] is dropped on the grid day 5 June. The day
    cell forwards the drop, and [handleAddEvent] takes its branch for
    a new event: the list is then [a], [b] and a copy of [a] dated
    5 June, 00:00. The event stored under the id still has its old
    date, a lookup by the id finds it, and the grid shows the id on
    3 June and on 5 June. After a click on [b] and the closing of the
    form, edit mode is still on and the same drop overwrites [b] with
    the copy: [b] is lost and [a] again keeps its date. *)
Theorem self_managed_drop_keeps_old_date :
  let a := mkEvent "a" "A" (newDate 2024 5 3 9 0) (Some "09:00")
                   (Some "10:00") None None None in
  let b := mkEvent "b" "B" (newDate 2024 5 4 9 0) (Some "09:00")
                   (Some "10:00") None None None in
  let day := newDate 2024 5 5 0 0 in
  let s := mkState [a; b] None false None false in
  let s' := mkState [a; b; withDate a day] None false None false in
  let edited := mkState [a; b] (Some (date b)) false (Some b) true in
  DayCell.handleDrop true day "a" = Some (day, "a") /\
  onDrop false [] 0 s day "a" = Internal s' /\
  find (fun e => String.eqb (id e) "a") (eventsToUse [] s') = Some a /\
  date a <> day /\
  getEventsForDay (eventsToUse [] s') (newDate 2024 5 3 0 0) = [a] /\
  getEventsForDay (eventsToUse [] s') day = [withDate a day] /\
  (exists opened,
      handleEventClick false [] s "b" = Local opened /\
      onClose opened = edited) /\
  onDrop false [] 0 edited day "a"
  = Internal (mkState [a; withDate a day] (Some (date b)) false (Some b)
                      true).
Proof.
  cbv zeta.
  split; [reflexivity|]. split; [reflexivity|]. split; [reflexivity|].
  split; [vm_compute; discriminate|].
  split; [vm_compute; reflexivity|]. split; [vm_compute; reflexivity|].
  split; [|reflexivity].
  eexists. split; reflexivity.
Qed.

End SelfManagedDrop.

(** ** Further properties of the recurrence matcher *)

Section MatcherReads.

Import JS DateFns Spec MonthlyCalendar.

(** X1. The matcher reads the event's date and the type, days and
    interval of its rule, and nothing else: two events that agree on
    these occur on the same days, whatever their end dates, ids,
    titles, times, descriptions and colors. *)
Theorem occursOn_reads_date_and_rule (e e' : Event) (r r' : Recurrence) :
  date e = date e' ->
  recurrence e = Some r -> recurrence e' = Some r' -> sameRule r r' ->
  forall day : Date, occursOn e day = occursOn e' day.
Proof.
  intros Hd Hr Hr' (Ht & Hdays & Hi) day.
  unfold occursOn. now rewrite Hr, Hr', Hd, Ht, Hdays, Hi.
Qed.

Lemma occursOn_reads_date_and_rule_witness :
  let anchor := newDate 2024 5 3 0 0 in
  let e := mkEvent "1" "A" anchor None None None None
             (Some (mkRecurrence "daily" None None None)) in
  let e' := mkEvent "2" "B" anchor (Some "09:00") None None (Some "red")
              (Some (mkRecurrence "daily" None None
                                  (Some (newDate 2024 5 4 0 0)))) in
  occursOn e (newDate 2025 0 1 0 0) = occursOn e' (newDate 2025 0 1 0 0).
Proof.
  intros anchor e e'.
  apply (occursOn_reads_date_and_rule e e'
           (mkRecurrence "daily" None None None)
           (mkRecurrence "daily" None None (Some (newDate 2024 5 4 0 0))));
    try reflexivity.
  repeat split.
Defined.

Lemma format_EEEE_In (t : Date) : In (format_EEEE t) weekdayNames.
Proof.
  unfold format_EEEE, getDay.
  pose proof (Z.mod_pos_bound (Day t + 4) 7 ltac:(lia)) as H.
  apply nth_In. simpl. lia.
Qed.

(** X2. A weekly event with at least one selected day depends on the
    weekday name of the day only: not on its own anchor date, and it
    repeats every 7 days in both directions, before the anchor too. *)
Theorem weekly_depends_on_weekday_only
        (e e' : Event) (r r' : Recurrence) (d : string) (ds : list string) :
  recurrence e = Some r -> type r = "weekly" -> days r = Some (d :: ds) ->
  recurrence e' = Some r' -> type r' = "weekly" -> days r' = days r ->
  (forall day day' : Date,
      weekdayName day = weekdayName day' ->
      occursOn e day = occursOn e' day') /\
  (forall (day : Date) (k : Z),
      occursOn e (shiftDays day (7 * k)) = occursOn e day).
Proof.
  intros Hr Ht Hd Hr' Ht' Hd'.
  assert (M : forall x, occursOn e x = includes (d :: ds) (format_EEEE x))
    by (intro x; now rewrite (occursOn_weekly _ _ r Hr Ht), Hd).
  assert (M' : forall x, occursOn e' x = includes (d :: ds) (format_EEEE x))
    by (intro x; now rewrite (occursOn_weekly _ _ r' Hr' Ht'), Hd', Hd).
  split.
  - intros day day' Hw. rewrite M, M'.
    unfold weekdayName in Hw. now rewrite Hw.
  - intros day k. rewrite !M. unfold format_EEEE.
    now rewrite (getDay_week day _ k (Day_shiftDays _ _)).
Qed.

Lemma weekly_depends_on_weekday_only_witness :
  let r := mkRecurrence "weekly" (Some ["Monday"]) None None in
  let e := mkEvent "1" "A" (newDate 2024 5 3 0 0) None None None None
                   (Some r) in
  occursOn e (shiftDays (newDate 2024 5 3 0 0) (7 * -10))
  = occursOn e (newDate 2024 5 3 0 0).
Proof.
  intros r e.
  exact (proj2 (weekly_depends_on_weekday_only e e r r "Monday" []
                  eq_refl eq_refl eq_refl eq_refl eq_refl eq_refl)
               (newDate 2024 5 3 0 0) (-10)).
Defined.

(** X3. Weekday names are matched as whole English names, case
    included: a weekly event whose selected days hold none of the seven
    names occurs on no day at all, its anchor date included. *)
Theorem weekly_unknown_names_never_occurs
        (e : Event) (r : Recurrence) (d : string) (ds : list string) :
  recurrence e = Some r -> type r = "weekly" -> days r = Some (d :: ds) ->
  (forall n, In n (d :: ds) -> ~ In n weekdayNames) ->
  forall day : Date, occursOn e day = false.
Proof.
  intros Hr Ht Hd Hn day.
  rewrite (occursOn_weekly _ _ r Hr Ht), Hd.
  apply not_true_is_false. unfold includes. rewrite existsb_exists.
  intros (n & Hin & E). apply String.eqb_eq in E. subst n.
  exact (Hn _ Hin (format_EEEE_In day)).
Qed.

Lemma weekly_unknown_names_never_occurs_witness :
  let r := mkRecurrence "weekly" (Some ["Mon"; "monday"]) None None in
  let e := mkEvent "1" "A" (newDate 2024 5 3 0 0) None None None None
                   (Some r) in
  occursOn e (newDate 2024 5 3 0 0) = false.
Proof.
  intros r e.
  apply (weekly_unknown_names_never_occurs e r "Mon" ["monday"]);
    try reflexivity.
  intros n [<-|[<-|[]]]; simpl;
    intros [A|[A|[A|[A|[A|[A|[A|[]]]]]]]]; discriminate A.
Defined.

(** X4. A custom event with interval 1 occurs on every day: every week
    number is a multiple of 1. *)
Theorem custom_interval_one_every_day (e : Event) (r : Recurrence) :
  recurrence e = Some r -> type r = "custom" -> interval r = Some 1 ->
  forall day : Date, occursOn e day = true.
Proof.
  intros Hr Ht Hi day. rewrite (occursOn_custom _ _ r Hr Ht), Hi.
  cbn [Z.ltb Z.compare]. now rewrite Z.rem_1_r.
Qed.

Lemma custom_interval_one_every_day_witness :
  let r := mkRecurrence "custom" None (Some 1) None in
  let e := mkEvent "1" "A" (newDate 2024 5 3 15 0) None None None None
                   (Some r) in
  occursOn e (newDate 2023 0 1 0 0) = true.
Proof.
  intros r e.
  exact (custom_interval_one_every_day e r eq_refl eq_refl eq_refl
           (newDate 2023 0 1 0 0)).
Defined.







(** X7. A monthly event occurs exactly once in every month that has
    its day number, in every year, before its anchor too. With [d] the
    anchor's day of the month, in a month of at least [d] days the
    event occurs on the day of that month with day number [d], and a
    day of that month has the event exactly when it is that calendar
    day. A month too short for the number has no occurrence, and two
    days of one month that both have the event are the same calendar
    day. *)
Theorem monthly_once_per_month (e : Event) (r : Recurrence) :
  recurrence e = Some r -> type r = "monthly" ->
  let d := getDate (date e) in
  (forall y mo : Z,
      0 <= mo <= 11 -> d <= daysInMonth y (mo + 1) ->
      let occurrence := newDate y mo d 0 0 in
      getFullYear occurrence = y /\
      getMonth occurrence = mo /\
      getDate occurrence = d /\
      occursOn e occurrence = true /\
      (forall day : Date,
          getFullYear day = y -> getMonth day = mo ->
          (occursOn e day = true <-> sameCalendarDay day occurrence))) /\
  (forall day : Date,
      daysInMonth (getFullYear day) (getMonth day + 1) < d ->
      occursOn e day = false) /\
  (forall day day' : Date,
      getFullYear day = getFullYear day' -> getMonth day = getMonth day' ->
      occursOn e day = true -> occursOn e day' = true ->
      sameCalendarDay day day').
Proof.
  intros Hr Ht d.
  assert (M : forall x, occursOn e x = (getDate x =? d))
    by (intro x; now rewrite (occursOn_monthly _ _ r Hr Ht)).
  split; [|split].
  - intros y mo Hmo Hlen occurrence. subst occurrence.
    pose proof (getDate_bounds (date e)) as Hb. fold d in Hb.
    destruct (fields_of_newDate y mo d 0 0 Hmo ltac:(lia)
                ltac:(split; [discriminate|reflexivity]))
      as (Fy & Fm & Fd).
    do 3 (split; [assumption|]).
    split; [now rewrite M, Fd, Z.eqb_refl|].
    intros day Hy Hm. rewrite M, Z.eqb_eq. unfold sameCalendarDay.
    rewrite Fy, Fm, Fd. tauto.
  - intros day Hshort. rewrite M. apply Z.eqb_neq.
    pose proof (getDate_bounds day). lia.
  - intros day day' Hy Hm H H'. rewrite M, Z.eqb_eq in H, H'.
    unfold sameCalendarDay. rewrite H, H'. tauto.
Qed.

Lemma monthly_once_per_month_witness :
  let r := mkRecurrence "monthly" None None None in
  let e := mkEvent "1" "A" (newDate 2024 5 15 9 0) None None None None
                   (Some r) in
  occursOn e (newDate 1999 1 15 0 0) = true /\
  occursOn e (newDate 1999 1 16 0 0) = false.
Proof.
  intros r e.
  pose proof (monthly_once_per_month e r eq_refl eq_refl) as [H _].
  change (getDate (date e)) with 15 in H.
  destruct (H 1999 1 ltac:(lia) ltac:(vm_compute; discriminate))
    as (_ & _ & _ & Ho & Honly).
  split; [exact Ho|].
  apply not_true_is_false. intros A.
  apply (Honly (newDate 1999 1 16 0 0) eq_refl eq_refl) in A.
  destruct A as (_ & _ & A). vm_compute in A. discriminate A.
Defined.

End MatcherReads.

(** ** The self-managed event list *)

Section LocalEvents.

Import JS DateFns Spec MonthlyCalendar.

Lemma toString_nonempty (n : Z) : toString n <> "".
Proof.
  unfold toString, NilZero.string_of_int, NilZero.string_of_uint.
  destruct (Z.to_int n) as [d|d]; [destruct d|]; discriminate.
Qed.

Lemma occursOn_withId (e : Event) (i : string) (day : Date) :
  occursOn (withId e i) day = occursOn e day.
Proof. reflexivity. Qed.

Lemma eventsToUse_local (s : State) : eventsToUse [] s = localEvents s.
Proof. reflexivity. Qed.

Lemma eventsToUse_host (events : list Event) (s : State) :
  events <> [] -> eventsToUse events s = events.
Proof. destruct events; [contradiction|reflexivity]. Qed.

(** X8. Outside edit mode, [handleAddEvent] appends one event and keeps
    the others as they are: the new event has the given data with an
    id that is never empty (the clock's digits when none was given),
    the form is closed, and on every day the cell's list is the old one
    followed by the new event exactly when the event occurs on that
    day. *)
Theorem handleAddEvent_appends
        (now : Z) (s : State) (eventData : Event) :
  isEditMode s = false \/ selectedEvent s = None ->
  let s' := handleAddEvent now s eventData in
  let newEvent :=
    withId eventData (if falsy_string (id eventData) then toString now
                      else id eventData) in
  localEvents s' = (localEvents s ++ [newEvent])%list /\
  id newEvent <> "" /\
  isEventFormOpen s' = false /\
  forall day : Date,
    getEventsForDay (localEvents s') day
    = (getEventsForDay (localEvents s) day
       ++ (if occursOn eventData day then [newEvent] else []))%list.
Proof.
  intros Hmode s' newEvent.
  assert (E : localEvents s' = (localEvents s ++ [newEvent])%list).
  { subst s' newEvent. unfold handleAddEvent.
    destruct Hmode as [-> | ->]; [reflexivity|].
    now destruct (isEditMode s). }
  split; [exact E|]. split.
  - subst newEvent. cbn [id withId]. unfold falsy_string.
    destruct (String.eqb_spec (id eventData) ""); [apply toString_nonempty|].
    assumption.
  - split.
    + subst s'. unfold handleAddEvent.
      now destruct (isEditMode s), (selectedEvent s).
    + intros day. rewrite E. unfold getEventsForDay.
      rewrite filter_app. cbn [filter]. subst newEvent.
      rewrite occursOn_withId. now destruct (occursOn eventData day).
Qed.

Lemma handleAddEvent_appends_witness :
  let a := mkEvent "a" "A" (newDate 2024 5 3 9 0) None None None None None in
  let n := mkEvent "" "N" (newDate 2024 5 5 9 0) None None None None None in
  let s := mkState [a] None true None false in
  localEvents (handleAddEvent 1717372800000 s n)
  = [a; withId n "1717372800000"].
Proof.
  intros a n s.
  destruct (handleAddEvent_appends 1717372800000 s n (or_introl eq_refl))
    as (H & _).
  rewrite H. reflexivity.
Defined.

(** X9. [handleDeleteEvent] removes every event that carries the id and
    nothing else, order kept, and closes the form: afterwards no day
    shows an event with that id, and every day shows its other events
    as before. *)
Theorem handleDeleteEvent_removes_id (s : State) (eventId : string) :
  let s' := handleDeleteEvent s eventId in
  (forall e, In e (localEvents s') <->
             In e (localEvents s) /\ id e <> eventId) /\
  isEventFormOpen s' = false /\
  (forall day : Date,
      getEventsForDay (localEvents s') day
      = filter (fun e => negb (String.eqb (id e) eventId))
               (getEventsForDay (localEvents s) day)) /\
  ((forall e, In e (localEvents s) -> id e <> eventId) ->
   localEvents s' = localEvents s).
Proof.
  intros s'. subst s'. cbn [handleDeleteEvent localEvents setLocalEvents
                             setIsEventFormOpen isEventFormOpen].
  split.
  - intros e. rewrite filter_In, negb_true_iff, String.eqb_neq. tauto.
  - split; [reflexivity|]. split.
    + intros day. unfold getEventsForDay.
      induction (localEvents s) as [|x l IH]; [reflexivity|].
      cbn [filter].
      destruct (String.eqb (id x) eventId) eqn:E; cbn [negb];
        destruct (occursOn x day) eqn:O; cbn [filter];
        rewrite ?E, ?O; cbn [negb]; rewrite ?IH; reflexivity.
    + intros Hno. induction (localEvents s) as [|x l IH]; [reflexivity|].
      cbn [filter].
      destruct (String.eqb_spec (id x) eventId) as [E|E].
      * now elim (Hno x (or_introl eq_refl)).
      * cbn [negb]. f_equal. apply IH. intros e He. apply Hno. now right.
Qed.

(** X10. The click that opens the form decides what saving does. After
    a click on a day, the saved event is appended, whatever was
    selected before; after a click on an event, the saved data replaces
    the events that carry the clicked event's id, and the list keeps
    its length. *)
Theorem click_then_save
        (now : Z) (events : list Event) (s : State) (eventData : Event) :
  (forall day : Date,
      exists s1 : State,
        handleDayClick false s day = Local s1 /\
        localEvents (handleAddEvent now s1 eventData)
        = (localEvents s
           ++ [withId eventData
                      (if falsy_string (id eventData) then toString now
                       else id eventData)])%list) /\
  (forall (eventId : string) (sel : Event),
      find (fun e => String.eqb (id e) eventId) (eventsToUse events s)
        = Some sel ->
      exists s1 : State,
        handleEventClick false events s eventId = Local s1 /\
        selectedEvent s1 = Some sel /\ id sel = eventId /\
        localEvents (handleAddEvent now s1 eventData)
        = map (fun e => if String.eqb (id e) eventId then eventData else e)
              (localEvents s) /\
        List.length (localEvents (handleAddEvent now s1 eventData))
        = List.length (localEvents s)) /\
  (forall eventId : string,
      find (fun e => String.eqb (id e) eventId) (eventsToUse events s)
        = None ->
      handleEventClick false events s eventId = Local s).
Proof.
  split; [|split].
  - intros day. eexists. split; reflexivity.
  - intros eventId sel Hf. unfold handleEventClick. rewrite Hf.
    eexists. split; [reflexivity|].
    assert (Hid : id sel = eventId)
      by (apply find_some in Hf as [_ Hf]; now apply String.eqb_eq).
    split; [reflexivity|]. split; [exact Hid|].
    assert (E : localEvents
                  (handleAddEvent now
                     (mkState (localEvents s) (Some (date sel)) true
                              (Some sel) true) eventData)
                = map (fun e => if String.eqb (id e) eventId then eventData
                                else e) (localEvents s))
      by (cbn; now rewrite Hid).
    split; [exact E|]. rewrite E. apply length_map.
  - intros eventId Hf. unfold handleEventClick. now rewrite Hf.
Qed.

Lemma click_then_save_witness :
  let a := mkEvent "a" "A" (newDate 2024 5 3 9 0) None None None None None in
  let b := mkEvent "b" "B" (newDate 2024 5 4 9 0) None None None None None in
  let a' := mkEvent "a" "A2" (newDate 2024 5 3 9 0) None None None None None in
  let s := mkState [a; b] None false None false in
  exists s1, handleEventClick false [] s "a" = Local s1 /\
             localEvents (handleAddEvent 0 s1 a') = [a'; b].
Proof.
  intros a b a' s.
  destruct (proj1 (proj2 (click_then_save 0 [] s a')) "a" a eq_refl)
    as (s1 & H & _ & _ & E & _).
  exists s1. split; [exact H|]. rewrite E. reflexivity.
Defined.

(** X11. Edit mode outlives the form. After a click on event [a] and
    the closing of the form, a drop of another known event [b]
    overwrites the events that carry [a]'s id with the moved copy of
    [b]: no event with [a]'s id is left, [b] itself stays where it was,
    and the list keeps its length. *)
Theorem drop_in_stale_edit_mode
        (now : Z) (s : State) (a b : Event) (day : Date) :
  find (fun e => String.eqb (id e) (id a)) (localEvents s) = Some a ->
  find (fun e => String.eqb (id e) (id b)) (localEvents s) = Some b ->
  id a <> id b ->
  exists s1 s3 : State,
    handleEventClick false [] s (id a) = Local s1 /\
    onDrop false [] now (onClose s1) day (id b) = Internal s3 /\
    localEvents s3
    = map (fun e => if String.eqb (id e) (id a) then withDate b day else e)
          (localEvents s) /\
    (forall e, In e (localEvents s3) -> id e <> id a) /\
    In b (localEvents s3) /\ In (withDate b day) (localEvents s3) /\
    List.length (localEvents s3) = List.length (localEvents s).
Proof.
  intros Ha Hb Hne. unfold handleEventClick.
  rewrite eventsToUse_local, Ha.
  eexists. eexists. split; [reflexivity|]. split.
  - unfold onDrop, onClose. rewrite eventsToUse_local.
    cbn [setIsEventFormOpen localEvents]. rewrite Hb. reflexivity.
  - cbn [handleAddEvent onClose setIsEventFormOpen setLocalEvents
         localEvents isEditMode selectedEvent].
    split; [reflexivity|]. split; [|split; [|split]].
    + intros e He. apply in_map_iff in He as (x & Hx & _).
      destruct (String.eqb_spec (id x) (id a)) as [E|E].
      * subst e. cbn [id withDate]. congruence.
      * now subst e.
    + apply in_map_iff. exists b. split.
      * destruct (String.eqb_spec (id b) (id a)); [congruence|reflexivity].
      * now apply find_some in Hb as [Hb _].
    + apply in_map_iff. exists a. split.
      * now rewrite String.eqb_refl.
      * now apply find_some in Ha as [Ha _].
    + apply length_map.
Qed.

Lemma drop_in_stale_edit_mode_witness :
  let a := mkEvent "a" "A" (newDate 2024 5 3 9 0) None None None None None in
  let b := mkEvent "b" "B" (newDate 2024 5 4 9 0) None None None None None in
  let s := mkState [a; b] None false None false in
  exists s1 s3,
    handleEventClick false [] s "a" = Local s1 /\
    onDrop false [] 0 (onClose s1) (newDate 2024 5 7 0 0) "b" = Internal s3 /\
    localEvents s3 = [withDate b (newDate 2024 5 7 0 0); b].
Proof.
  intros a b s.
  destruct (drop_in_stale_edit_mode 0 s a b (newDate 2024 5 7 0 0)
              eq_refl eq_refl ltac:(discriminate))
    as (s1 & s3 & H0 & H1 & H2 & _).
  exists s1, s3. split; [exact H0|]. split; [exact H1|].
  rewrite H2. reflexivity.
Defined.

(** X12. Outside edit mode a drop moves nothing: the moved copy is
    appended and the original stays, so the id is in the list twice, a
    lookup by the id still finds the original with its old date, and a
    later delete by the id removes both. *)
Theorem drop_outside_edit_mode_duplicates
        (now : Z) (s : State) (day : Date) (eventId : string) (e : Event) :
  isEditMode s = false \/ selectedEvent s = None ->
  DayCell.handleDrop true day eventId = Some (day, eventId) ->
  find (fun x => String.eqb (id x) eventId) (localEvents s) = Some e ->
  exists s' : State,
    onDrop false [] now s day eventId = Internal s' /\
    localEvents s' = (localEvents s ++ [withDate e day])%list /\
    find (fun x => String.eqb (id x) eventId) (localEvents s') = Some e /\
    localEvents (handleDeleteEvent s' eventId)
    = filter (fun x => negb (String.eqb (id x) eventId)) (localEvents s).
Proof.
  intros Hmode Hdrop Hf.
  assert (Hne : falsy_string eventId = false).
  { unfold DayCell.handleDrop in Hdrop.
    destruct (falsy_string eventId); [discriminate|reflexivity]. }
  assert (Hid : id e = eventId)
    by (apply find_some in Hf as [_ Hf]; now apply String.eqb_eq).
  eexists. split.
  - unfold onDrop. rewrite eventsToUse_local, Hf. reflexivity.
  - assert (E : localEvents (handleAddEvent now s (withDate e day))
                = (localEvents s ++ [withDate e day])%list).
    { unfold handleAddEvent. cbn [id withDate].
      rewrite <- Hid in Hne. rewrite Hne.
      replace (withId (withDate e day) (id e)) with (withDate e day)
        by now destruct e.
      destruct Hmode as [-> | ->]; [|destruct (isEditMode s)]; reflexivity. }
    split; [exact E|]. split.
    + rewrite E. clear E.
      induction (localEvents s) as [|x l IH]; [discriminate|].
      cbn [find app] in *.
      destruct (String.eqb (id x) eventId); [exact Hf|now apply IH].
    + cbn [handleDeleteEvent localEvents setLocalEvents setIsEventFormOpen].
      rewrite E, filter_app. cbn [filter id withDate].
      rewrite Hid, String.eqb_refl. cbn [negb]. apply app_nil_r.
Qed.

Lemma drop_outside_edit_mode_duplicates_witness :
  let a := mkEvent "a" "A" (newDate 2024 5 3 9 0) None None None None None in
  let s := mkState [a] None false None false in
  exists s',
    onDrop false [] 0 s (newDate 2024 5 7 0 0) "a" = Internal s' /\
    localEvents s' = [a; withDate a (newDate 2024 5 7 0 0)].
Proof.
  intros a s.
  destruct (drop_outside_edit_mode_duplicates 0 s (newDate 2024 5 7 0 0)
              "a" a (or_introl eq_refl) eq_refl eq_refl)
    as (s' & H1 & H2 & _).
  exists s'. split; [exact H1|]. rewrite H2. reflexivity.
Defined.

(** X13. While the host supplies events, the calendar shows the host's
    list only: without a host drag handler a drop changes the local
    list at most, and every cell shows what it showed before. *)
Theorem host_events_hide_local_changes
        (events : list Event) (now : Z) (s : State) (day : Date)
        (eventId : string) :
  events <> [] ->
  exists s' : State,
    onDrop false events now s day eventId = Internal s' /\
    eventsToUse events s' = events /\
    forall d : Date,
      getEventsForDay (eventsToUse events s') d
      = getEventsForDay (eventsToUse events s) d.
Proof.
  intros Hne. unfold onDrop.
  destruct (find _ (eventsToUse events s)); eexists;
    (split; [reflexivity|]);
    rewrite !(eventsToUse_host _ _ Hne); split; reflexivity.
Qed.

Lemma host_events_hide_local_changes_witness :
  let a := mkEvent "a" "A" (newDate 2024 5 3 9 0) None None None None None in
  let s := mkState [] None false None false in
  exists s',
    onDrop false [a] 0 s (newDate 2024 5 7 0 0) "a" = Internal s' /\
    eventsToUse [a] s' = [a].
Proof.
  intros a s.
  destruct (host_events_hide_local_changes [a] 0 s (newDate 2024 5 7 0 0)
              "a" ltac:(discriminate)) as (s' & H1 & H2 & _).
  exists s'. split; assumption.
Defined.

End LocalEvents.

(** ** The host page: store updates *)

Section HomeStore.

Import JS Spec Home.

Lemma filter_survivors (eventId : string) (l : list Event) :
  filter (fun e => negb (String.eqb (id e) eventId)) l = survivors eventId l.
Proof.
  induction l as [|x l IH]; [reflexivity|]. cbn [filter survivors].
  destruct (String.eqb (id x) eventId); cbn [negb]; now rewrite IH.
Qed.

(** X14. [handleDeleteEvent] of the page removes every event that
    carries the id and nothing else, and closes the form; the selected
    event and the mode are kept. What stays is in its old order: an
    event with the id is dropped from the front of the list, any other
    event stays at the front, and so on down the list; the removal
    goes through [++]. An id that no event carries leaves the list as
    it is, and a second removal of the same id changes nothing. *)
Theorem home_delete_removes_id (s : State) (eventId : string) :
  let s' := handleDeleteEvent s eventId in
  events s' = survivors eventId (events s) /\
  (forall e, In e (events s') <-> In e (events s) /\ id e <> eventId) /\
  (forall l1 l2, events s = (l1 ++ l2)%list ->
                 events s' = (survivors eventId l1 ++ survivors eventId l2)%list) /\
  isEventFormOpen s' = false /\
  selectedEvent s' = selectedEvent s /\
  isNewEvent s' = isNewEvent s /\
  ((forall e, In e (events s) -> id e <> eventId) -> events s' = events s) /\
  handleDeleteEvent s' eventId = s'.
Proof.
  cbn [handleDeleteEvent events isEventFormOpen selectedEvent isNewEvent].
  split; [apply filter_survivors|]. split.
  { intros e. rewrite filter_In, negb_true_iff, String.eqb_neq. tauto. }
  split.
  { intros l1 l2 ->. now rewrite filter_app, !filter_survivors. }
  do 3 (split; [reflexivity|]).
  assert (K : forall l : list Event,
             (forall e, In e l -> id e <> eventId) ->
             filter (fun e => negb (String.eqb (id e) eventId)) l = l).
  { induction l as [|x l IH]; [reflexivity|]. intros Hno.
    cbn [filter]. destruct (String.eqb_spec (id x) eventId) as [E|E].
    - now elim (Hno x (or_introl eq_refl)).
    - cbn [negb]. f_equal. apply IH. intros e He. apply Hno. now right. }
  split; [apply K|].
  unfold handleDeleteEvent.
  cbn [events isEventFormOpen selectedEvent isNewEvent].
  f_equal. apply K. intros e He.
  apply filter_In in He as [_ He].
  now rewrite negb_true_iff, String.eqb_neq in He.
Qed.

(** X15. [updateEventDate] changes dates only, and only of the events
    that carry the id: the list keeps its length and order, every
    event keeps its id, title, times, description, color and
    recurrence, events with another id are untouched, and an id that
    no event carries leaves the list as it is. This holds for any
    target date, in every time zone. *)
Theorem updateEventDate_frame
        (tz : Zone) (evs : list Event) (eventId : string) (newDate : Date) :
  let evs' := updateEventDate tz evs eventId newDate in
  List.length evs' = List.length evs /\
  map id evs' = map id evs /\
  map title evs' = map title evs /\
  map startTime evs' = map startTime evs /\
  map endTime evs' = map endTime evs /\
  map description evs' = map description evs /\
  map color evs' = map color evs /\
  map recurrence evs' = map recurrence evs /\
  (forall n e, nth_error evs n = Some e -> id e <> eventId ->
               nth_error evs' n = Some e) /\
  ((forall e, In e evs -> id e <> eventId) -> evs' = evs).
Proof.
  cbv zeta. unfold updateEventDate.
  split; [apply length_map|].
  repeat (split; [rewrite map_map; apply map_ext; intros e;
                  now destruct (String.eqb (id e) eventId)|]).
  split.
  - intros n e Hn Hid. rewrite nth_error_map, Hn. cbn [option_map].
    destruct (String.eqb_spec (id e) eventId); [contradiction|reflexivity].
  - intros Hno. rewrite <- (map_id evs) at 2. apply map_ext_in.
    intros e He. destruct (String.eqb_spec (id e) eventId); [|reflexivity].
    now elim (Hno e He).
Qed.

Lemma Day_LocalTime_shiftDays (c : Z) (t : Date) (k : Z) :
  Day (LocalTime (fixedZone c) (shiftDays t k))
  = Day (LocalTime (fixedZone c) t) + k.
Proof.
  rewrite !LocalTime_fixed.
  replace (shiftDays t k + c) with (shiftDays (t + c) k)
    by (unfold shiftDays; lia).
  apply Day_shiftDays.
Qed.

Lemma relocated_twice (c : Z) (e : Event) (d1 d2 : Date) :
  isCalendarDayIn (fixedZone c) d1 -> isCalendarDayIn (fixedZone c) d2 ->
  relocated (fixedZone c) (relocated (fixedZone c) e d1) d2
  = relocated (fixedZone c) e d2.
Proof.
  intros H1 H2. rewrite !relocated_eq by assumption.
  cbn [date withDate].
  assert (E : forall k,
             shiftDays (shiftDays (date e) k)
               (dayDeltaIn (fixedZone c) (shiftDays (date e) k) d2)
             = shiftDays (date e) (dayDeltaIn (fixedZone c) (date e) d2)).
  { intros k. unfold dayDeltaIn, dayDelta.
    rewrite Day_LocalTime_shiftDays. unfold shiftDays.
    rewrite msPerDay_value. lia. }
  rewrite E. now destruct e.
Qed.

Lemma isCalendarDay_startOfDay (t : Date) :
  isCalendarDay (DateFns.startOfDay t).
Proof.
  unfold isCalendarDay, TimeWithinDay, DateFns.startOfDay. apply Z_mod_mult.
Qed.

Lemma Day_startOfDay (t : Date) : Day (DateFns.startOfDay t) = Day t.
Proof.
  unfold DateFns.startOfDay, Day at 1. rewrite msPerDay_value.
  now rewrite Z_div_mult by lia.
Qed.

Lemma LocalTime_gridDayIn (c : Z) (t : Date) :
  LocalTime (fixedZone c) (gridDayIn (fixedZone c) t)
  = DateFns.startOfDay (LocalTime (fixedZone c) t).
Proof. unfold gridDayIn. rewrite UTC_fixed, !LocalTime_fixed. lia. Qed.

(** X16. In a zone whose clocks never change, moves to grid days
    compose: a move to one day followed by a move to another is the
    move to the second day, for one event and for the whole list, and
    a move of an event to the grid day it is on changes nothing. *)
Theorem relocation_composes
        (c : Z) (evs : list Event) (e : Event) (eventId : string)
        (d1 d2 : Date) :
  let tz := fixedZone c in
  isCalendarDayIn tz d1 -> isCalendarDayIn tz d2 ->
  relocated tz (relocated tz e d1) d2 = relocated tz e d2 /\
  updateEventDate tz (updateEventDate tz evs eventId d1) eventId d2
  = updateEventDate tz evs eventId d2 /\
  isCalendarDayIn tz (gridDayIn tz (date e)) /\
  sameCalendarDayIn tz (gridDayIn tz (date e)) (date e) /\
  relocated tz e (gridDayIn tz (date e)) = e.
Proof.
  intros tz H1 H2. subst tz.
  split; [now apply relocated_twice|]. split.
  { unfold updateEventDate. rewrite map_map. apply map_ext. intros x.
    destruct (String.eqb (id x) eventId) eqn:E.
    - replace (id (relocated (fixedZone c) x d1)) with (id x)
        by reflexivity.
      rewrite E. now apply relocated_twice.
    - now rewrite E. }
  assert (G : isCalendarDayIn (fixedZone c) (gridDayIn (fixedZone c) (date e))).
  { unfold isCalendarDayIn. rewrite LocalTime_gridDayIn.
    apply isCalendarDay_startOfDay. }
  split; [exact G|]. split.
  - apply sameCalendarDayIn_Day.
    now rewrite LocalTime_gridDayIn, Day_startOfDay.
  - rewrite (relocated_eq _ _ _ G).
    unfold dayDeltaIn, dayDelta.
    rewrite LocalTime_gridDayIn, Day_startOfDay, Z.sub_diag.
    unfold shiftDays. rewrite Z.mul_0_l, Z.add_0_r. now destruct e.
Qed.

Lemma relocation_composes_witness :
  let india := fixedZone (330 * 60000) in
  let a := mkEvent "a" "A" (dateIn india 2024 5 3 9 30) "09:30" "10:00"
                   None None None in
  relocated india (relocated india a (dateIn india 2024 5 20 0 0))
            (dateIn india 2024 5 3 0 0) = a.
Proof.
  intros india a.
  destruct (relocation_composes (330 * 60000) [] a "a"
              (dateIn india 2024 5 20 0 0) (dateIn india 2024 5 3 0 0)
              eq_refl eq_refl) as (H & _ & _).
  fold india in H. rewrite H. vm_compute. reflexivity.
Defined.

(** X17. What a drag does to the page, in every time zone. An unknown
    id, or a conflict that the user does not confirm, leaves the state
    as it is. In every other case the list becomes [updateEventDate]
    of the old one and nothing else in the state changes. In a zone
    whose clocks never change, every event with the dragged id is then
    on the target day when that is a grid day. *)
Theorem handleDragEvent_outcomes
        (tz : Zone) (confirmed : bool) (s : State) (eventId : string)
        (newDate : Date) :
  let s' := handleDragEvent tz confirmed s eventId newDate in
  (find (fun e => String.eqb (id e) eventId) (events s) = None -> s' = s) /\
  (forall e,
      find (fun x => String.eqb (id x) eventId) (events s) = Some e ->
      checkForConflicts tz s e newDate = true -> confirmed = false ->
      s' = s) /\
  (forall e,
      find (fun x => String.eqb (id x) eventId) (events s) = Some e ->
      checkForConflicts tz s e newDate = false \/ confirmed = true ->
      s' = setEvents s (updateEventDate tz (events s) eventId newDate) /\
      selectedEvent s' = selectedEvent s /\
      isEventFormOpen s' = isEventFormOpen s /\
      isNewEvent s' = isNewEvent s /\
      ((exists c, tz = fixedZone c) -> isCalendarDayIn tz newDate ->
       forall x, In x (events s') -> id x = eventId ->
                 sameCalendarDayIn tz (date x) newDate)).
Proof.
  cbv zeta. unfold handleDragEvent. split; [|split].
  - now intros ->.
  - intros e -> -> ->. reflexivity.
  - intros e -> Hc.
    assert (E : (if checkForConflicts tz s e newDate
                 then if confirmed
                      then setEvents s (updateEventDate tz (events s) eventId
                                                        newDate)
                      else s
                 else setEvents s (updateEventDate tz (events s) eventId
                                                   newDate))
                = setEvents s (updateEventDate tz (events s) eventId newDate)).
    { destruct Hc as [-> | ->]; [reflexivity|].
      now destruct (checkForConflicts tz s e newDate). }
    rewrite E. do 4 (split; [reflexivity|]).
    intros (c & ->) Hd x Hx Hid. cbn [setEvents events] in Hx.
    unfold updateEventDate in Hx. apply in_map_iff in Hx as (y & Hy & _).
    destruct (String.eqb_spec (id y) eventId) as [Ey|Ey].
    + subst x. rewrite (relocated_eq _ _ _ Hd). cbn [date withDate].
      apply sameCalendarDayIn_Day. rewrite Day_LocalTime_shiftDays.
      unfold dayDeltaIn, dayDelta. lia.
    + subst x. contradiction.
Qed.

(** X18. What a save does to the page, in every time zone. A conflict
    that the user does not confirm leaves the state as it is, the form
    open. Otherwise the
    form closes; a new event is appended under the clock's digits as
    its id, whatever id the data carried; an edited event replaces the
    events that carry its id, the list keeps its length, and when no
    event carries the id the list is left as it is. *)
Theorem handleSaveEvent_outcomes
        (tz : Zone) (confirmed : bool) (now : Z) (s : State)
        (eventData : Event) :
  let s' := handleSaveEvent tz confirmed now s eventData in
  (checkForEventConflicts tz s eventData = true -> confirmed = false ->
   s' = s) /\
  (checkForEventConflicts tz s eventData = false \/ confirmed = true ->
   isEventFormOpen s' = false /\
   (isNewEvent s = true ->
    events s' = (events s ++ [withId eventData (toString now)])%list) /\
   (isNewEvent s = false ->
    events s'
    = map (fun e => if String.eqb (id e) (id eventData) then eventData
                    else e) (events s) /\
    List.length (events s') = List.length (events s) /\
    ((forall e, In e (events s) -> id e <> id eventData) ->
     events s' = events s))).
Proof.
  cbv zeta. unfold handleSaveEvent. split.
  - now intros -> ->.
  - intros Hc.
    assert (E : checkForEventConflicts tz s eventData && negb confirmed = false).
    { destruct Hc as [-> | ->]; [reflexivity|apply andb_false_r]. }
    rewrite E. split; [reflexivity|]. split.
    + intros ->. reflexivity.
    + intros ->. cbn [events setEvents]. split; [reflexivity|].
      split; [apply length_map|].
      intros Hno. rewrite <- (map_id (events s)) at 2. apply map_ext_in.
      intros e He.
      destruct (String.eqb_spec (id e) (id eventData)); [|reflexivity].
      now elim (Hno e He).
Qed.

End HomeStore.

(** ** More on conflicts and time strings *)

Section ConflictsMore.

Import JS Spec Home.

Lemma sameFields_refl (tz : Zone) (t : Date) : sameFields tz t t = true.
Proof. now apply sameFields_sameCalendarDayIn. Qed.

(** X19. In every time zone, an event that is saved as an edit, or
    dragged, is never in
    conflict with the events that carry its own id, itself included;
    saved as new, an event with a start before its end is always in
    conflict with a listed event of the same day and the same times,
    such as itself. *)
Theorem conflict_with_itself (tz : Zone) (s : State) (e : Event) :
  ((forall x, In x (events s) -> id x = id e) ->
   (forall targetDate, checkForConflicts tz s e targetDate = false) /\
   (isNewEvent s = false -> checkForEventConflicts tz s e = false)) /\
  (In e (events s) -> isNewEvent s = true ->
   lt (timeToMinutes (startTime e)) (timeToMinutes (endTime e)) = true ->
   checkForEventConflicts tz s e = true).
Proof.
  split.
  - intros Hall. split.
    + intros targetDate. apply not_true_is_false. intros H.
      apply checkForConflicts_iff in H as (x & Hin & _ & Hid & _).
      exact (Hid (Hall x Hin)).
    + intros Hn. apply not_true_is_false. intros H.
      apply checkForEventConflicts_iff in H as (x & Hin & _ & Hid & _).
      exact (Hid Hn (Hall x Hin)).
  - intros Hin Hn Hlt. apply checkForEventConflicts_iff. exists e.
    split; [exact Hin|]. split; [now apply sameCalendarDayIn_Day|].
    split; [rewrite Hn; discriminate|]. split; [exact Hlt|exact Hlt].
Qed.

Lemma conflict_with_itself_witness :
  let a := mkEvent "a" "A" (newDate 2024 5 3 0 0) "09:00" "10:00" None None
                   None in
  checkForEventConflicts utc
    (handleEditEvent (mkState [a] None false true) a) a
  = false /\
  checkForEventConflicts utc (mkState [a] None false true) a = true.
Proof.
  intros a. split.
  - apply (proj1 (conflict_with_itself utc
                    (handleEditEvent (mkState [a] None false true) a) a)).
    + intros x [<-|[]]. reflexivity.
    + reflexivity.
  - apply (proj2 (conflict_with_itself utc
                    (mkState [a] None false true) a)).
    + left. reflexivity.
    + reflexivity.
    + vm_compute. reflexivity.
Defined.

Lemma overlaps_sym cs ce es ee : overlaps cs ce es ee = overlaps es ee cs ce.
Proof. unfold overlaps, gt. apply andb_comm. Qed.

(** X20. Conflict is symmetric, in every time zone: for two events
    with different ids, the first dragged onto the day of the second conflicts with it exactly
    when the second dragged onto the day of the first conflicts with
    the first. *)
Theorem conflict_symmetric (tz : Zone) (a b : Event) (s_a s_b : State) :
  events s_a = [a] -> events s_b = [b] -> id a <> id b ->
  checkForConflicts tz s_b a (date b) = checkForConflicts tz s_a b (date a).
Proof.
  intros Ha Hb Hne. unfold checkForConflicts. rewrite Ha, Hb.
  cbn [filter].
  destruct (String.eqb_spec (id b) (id a)) as [E|_]; [congruence|].
  destruct (String.eqb_spec (id a) (id b)) as [E|_]; [congruence|].
  rewrite !sameFields_refl. cbn [existsb]. rewrite !orb_false_r.
  apply overlaps_sym.
Qed.

Lemma conflict_symmetric_witness :
  let a := mkEvent "a" "A" (newDate 2024 5 3 0 0) "09:00" "10:00" None None
                   None in
  let b := mkEvent "b" "B" (newDate 2024 5 4 0 0) "09:30" "10:30" None None
                   None in
  checkForConflicts utc (mkState [b] None false true) a (date b)
  = checkForConflicts utc (mkState [a] None false true) b (date a).
Proof.
  intros a b.
  apply (conflict_symmetric utc a b); try reflexivity. discriminate.
Defined.

(** X21. In every time zone the conflict checks look at the events
    as a set: with no
    event there is no conflict, a conflict found in a list is found in
    every list that holds its events too, and the order of the events
    does not matter. *)
Theorem conflict_monotone
        (tz : Zone) (s s' : State) (e : Event) (targetDate : Date) :
  isNewEvent s = isNewEvent s' ->
  (events s = [] ->
   checkForConflicts tz s e targetDate = false /\
   checkForEventConflicts tz s e = false) /\
  (incl (events s) (events s') ->
   (checkForConflicts tz s e targetDate = true ->
    checkForConflicts tz s' e targetDate = true) /\
   (checkForEventConflicts tz s e = true ->
    checkForEventConflicts tz s' e = true)) /\
  (Permutation (events s) (events s') ->
   checkForConflicts tz s e targetDate = checkForConflicts tz s' e targetDate /\
   checkForEventConflicts tz s e = checkForEventConflicts tz s' e).
Proof.
  intros Hn.
  assert (Hincl : forall t t' : State,
             isNewEvent t = isNewEvent t' -> incl (events t) (events t') ->
             (checkForConflicts tz t e targetDate = true ->
              checkForConflicts tz t' e targetDate = true) /\
             (checkForEventConflicts tz t e = true ->
              checkForEventConflicts tz t' e = true)).
  { intros t t' Hnt Hi. split.
    - rewrite !checkForConflicts_iff. intros (x & Hx & H). exists x.
      split; [now apply Hi|exact H].
    - rewrite !checkForEventConflicts_iff, Hnt. intros (x & Hx & H).
      exists x. split; [now apply Hi|exact H]. }
  split; [|split].
  - intros He. unfold checkForConflicts, checkForEventConflicts.
    now rewrite He.
  - now apply Hincl.
  - intros Hp.
    destruct (Hincl s s' Hn) as [A1 A2];
      [intros x; now apply Permutation_in|].
    destruct (Hincl s' s (eq_sym Hn)) as [B1 B2];
      [intros x; apply Permutation_in; now apply Permutation_sym|].
    split; apply eq_true_iff_eq; split; auto.
Qed.

Lemma conflict_monotone_witness :
  let a := mkEvent "a" "A" (newDate 2024 5 3 0 0) "09:00" "10:00" None None
                   None in
  let b := mkEvent "b" "B" (newDate 2024 5 3 0 0) "09:30" "10:30" None None
                   None in
  let c := mkEvent "c" "C" (newDate 2024 5 3 0 0) "09:45" "09:50" None None
                   None in
  checkForConflicts utc (mkState [a; b] None false true) c (date c)
  = checkForConflicts utc (mkState [b; a] None false true) c (date c).
Proof.
  intros a b c.
  apply (proj2 (proj2 (conflict_monotone utc
                         (mkState [a; b] None false true)
                         (mkState [b; a] None false true) c (date c)
                         eq_refl))).
  apply perm_swap.
Defined.

Lemma split_noColon (s : string) : noColon s = true -> split ":" s = [s].
Proof.
  induction s as [|c r IH]; intros H; cbn [split]; [reflexivity|].
  cbn [noColon] in H. apply andb_prop in H as [Hc Hr].
  apply negb_true_iff in Hc. now rewrite Hc, (IH Hr).
Qed.

Lemma split_app_noColon (a b : string) :
  noColon a = true -> split ":" (a ++ ":" ++ b) = a :: split ":" b.
Proof.
  intros H. induction a as [|c r IH]; [reflexivity|].
  cbn [noColon] in H. apply andb_prop in H as [Hc Hr].
  apply negb_true_iff in Hc.
  change ((String c r ++ ":" ++ b)%string)
    with (String c (r ++ ":" ++ b)%string).
  cbn [split]. now rewrite Hc, (IH Hr).
Qed.

Lemma timeToMinutes_noColon (s : string) :
  noColon s = true -> timeToMinutes s = NaN.
Proof. intros H. unfold timeToMinutes. now rewrite (split_noColon _ H). Qed.

Lemma lt_NaN_l (a : number) : lt NaN a = false.
Proof. reflexivity. Qed.

Lemma lt_NaN_r (a : number) : lt a NaN = false.
Proof. now destruct a. Qed.

(** X22. A time string without a colon, the empty string included, has
    no minute value (NaN), and an event whose start or end is such a
    string is never reported in conflict, whatever the other events
    and the time zone are. *)
Theorem time_without_colon_never_conflicts
        (tz : Zone) (s : State) (e : Event) (targetDate : Date) :
  noColon (startTime e) = true \/ noColon (endTime e) = true ->
  (timeToMinutes (startTime e) = NaN \/ timeToMinutes (endTime e) = NaN) /\
  checkForConflicts tz s e targetDate = false /\
  checkForEventConflicts tz s e = false.
Proof.
  intros H.
  assert (Hnan : timeToMinutes (startTime e) = NaN \/
                 timeToMinutes (endTime e) = NaN)
    by (destruct H as [H|H]; [left|right]; now apply timeToMinutes_noColon).
  split; [exact Hnan|].
  assert (Ho : forall es ee, overlaps (startTime e) (endTime e) es ee = false).
  { intros es ee. unfold overlaps, gt.
    destruct Hnan as [-> | ->]; [reflexivity|].
    rewrite lt_NaN_r. apply andb_false_r. }
  split; apply not_true_is_false; intros C.
  - apply checkForConflicts_iff in C as (x & _ & _ & _ & Hx).
    apply overlaps_spec in Hx. now rewrite Ho in Hx.
  - apply checkForEventConflicts_iff in C as (x & _ & _ & _ & Hx).
    apply overlaps_spec in Hx. now rewrite Ho in Hx.
Qed.

Lemma time_without_colon_never_conflicts_witness :
  let a := mkEvent "a" "A" (newDate 2024 5 3 0 0) "09:00" "10:00" None None
                   None in
  let c := mkEvent "c" "C" (newDate 2024 5 3 0 0) "" "10:00" None None
                   None in
  checkForEventConflicts utc (mkState [a] None false true) c = false.
Proof.
  intros a c.
  exact (proj2 (proj2 (time_without_colon_never_conflicts utc
                         (mkState [a] None false true) c (date c)
                         (or_introl eq_refl)))).
Defined.

(** X23. Only the first two pieces of a time string count: what
    follows a second colon, such as seconds, is ignored. *)
Theorem timeToMinutes_ignores_third_piece (hh mm rest : string) :
  noColon hh = true -> noColon mm = true ->
  timeToMinutes (hh ++ ":" ++ mm ++ ":" ++ rest)
  = timeToMinutes (hh ++ ":" ++ mm) /\
  timeToMinutes (hh ++ ":" ++ mm) = add (mul (Number hh) (ofZ 60)) (Number mm).
Proof.
  intros Hh Hm. unfold timeToMinutes.
  rewrite !(split_app_noColon hh) by exact Hh.
  rewrite (split_app_noColon mm) by exact Hm.
  rewrite (split_noColon mm Hm).
  destruct (split ":" rest); split; reflexivity.
Qed.

Lemma timeToMinutes_ignores_third_piece_witness :
  timeToMinutes "10:30:45" = timeToMinutes "10:30".
Proof.
  exact (proj1 (timeToMinutes_ignores_third_piece "10" "30" "45"
                  eq_refl eq_refl)).
Defined.

Lemma lt_ofZ (a b : Z) : lt (ofZ a) (ofZ b) = (a <? b).
Proof.
  unfold lt, ofZ, Qltb, inject_Z. cbn [Qnum Qden]. now rewrite !Z.mul_1_r.
Qed.

Lemma twoDigits_numeral (s : string) :
  twoDigits s = true -> isNumeral s = true.
Proof.
  destruct s as [|a [|b [|c r]]]; try discriminate.
  unfold isNumeral. cbn [twoDigits allDigits String.eqb negb].
  intros H. apply andb_prop in H as [Ha Hb]. now rewrite Ha, Hb.
Qed.

Lemma Ascii_compare_Z (a b : ascii) :
  Ascii.compare a b
  = (Z.of_N (N_of_ascii a) ?= Z.of_N (N_of_ascii b)).
Proof. unfold Ascii.compare. now rewrite N2Z.inj_compare. Qed.

Lemma isDigit_range (c : ascii) :
  isDigit c = true -> 48 <= Z.of_N (N_of_ascii c) <= 57.
Proof.
  unfold isDigit. rewrite andb_true_iff, !N.leb_le. lia.
Qed.

(** X24. For times written as two digits, a colon and two digits with
    minutes below 60, the text order that the form validates with is
    the order of the minute values that the conflict checks compute:
    the form's rule "start not before end" fails exactly when the start
    is not earlier in minutes, so a form that passes validation has a
    start that is earlier than its end. *)
Theorem padded_time_order (event : EventForm.EventData)
        (h1 m1 h2 m2 : string) :
  twoDigits h1 = true -> twoDigits m1 = true ->
  twoDigits h2 = true -> twoDigits m2 = true ->
  decimalValue 0 m1 <= 59 -> decimalValue 0 m2 <= 59 ->
  EventForm.startTime event = h1 ++ ":" ++ m1 ->
  EventForm.endTime event = h2 ++ ":" ++ m2 ->
  string_ge (EventForm.startTime event) (EventForm.endTime event)
  = negb (lt (timeToMinutes (EventForm.startTime event))
             (timeToMinutes (EventForm.endTime event))) /\
  (EventForm.valid (EventForm.validateForm event) = true ->
   lt (timeToMinutes (EventForm.startTime event))
      (timeToMinutes (EventForm.endTime event)) = true).
Proof.
  intros T1 T2 T3 T4 B1 B2 Es Ee.
  assert (O : string_ge (EventForm.startTime event) (EventForm.endTime event)
              = negb (lt (timeToMinutes (EventForm.startTime event))
                         (timeToMinutes (EventForm.endTime event)))).
  { rewrite Es, Ee.
    rewrite !timeToMinutes_numerals by now apply twoDigits_numeral.
    rewrite lt_ofZ.
    destruct h1 as [|a1 [|b1 [|? ?]]]; try discriminate T1.
    destruct m1 as [|c1 [|d1 [|? ?]]]; try discriminate T2.
    destruct h2 as [|a2 [|b2 [|? ?]]]; try discriminate T3.
    destruct m2 as [|c2 [|d2 [|? ?]]]; try discriminate T4.
    cbn [twoDigits] in T1, T2, T3, T4.
    apply andb_prop in T1 as [Ha1 Hb1]. apply andb_prop in T2 as [Hc1 Hd1].
    apply andb_prop in T3 as [Ha2 Hb2]. apply andb_prop in T4 as [Hc2 Hd2].
    apply isDigit_range in Ha1, Hb1, Hc1, Hd1, Ha2, Hb2, Hc2, Hd2.
    cbn [decimalValue] in *.
    unfold string_ge, String.ltb.
    cbn [String.append String.compare].
    rewrite !Ascii_compare_Z.
    change (Ascii.compare ":" ":") with Eq.
    set (x1 := Z.of_N (N_of_ascii a1)) in *.
    set (y1 := Z.of_N (N_of_ascii b1)) in *.
    set (z1 := Z.of_N (N_of_ascii c1)) in *.
    set (w1 := Z.of_N (N_of_ascii d1)) in *.
    set (x2 := Z.of_N (N_of_ascii a2)) in *.
    set (y2 := Z.of_N (N_of_ascii b2)) in *.
    set (z2 := Z.of_N (N_of_ascii c2)) in *.
    set (w2 := Z.of_N (N_of_ascii d2)) in *.
    clearbody x1 y1 z1 w1 x2 y2 z2 w2.
    destruct (Z.compare_spec x1 x2); cbn [negb];
      [destruct (Z.compare_spec y1 y2); cbn [negb];
       [destruct (Z.compare_spec z1 z2); cbn [negb];
        [destruct (Z.compare_spec w1 w2); cbn [negb]| |]| |]| |];
      symmetry; first [apply negb_true_iff, Z.ltb_ge; lia
                      |apply negb_false_iff, Z.ltb_lt; lia]. }
  split; [exact O|].
  intros V. apply negb_false_iff. rewrite <- O.
  unfold EventForm.validateForm in V.
  destruct (falsy_string (trim (EventForm.title event))); [discriminate V|].
  destruct (EventForm.date event); [|discriminate V].
  destruct (falsy_string (EventForm.startTime event)); [discriminate V|].
  destruct (falsy_string (EventForm.endTime event)); [discriminate V|].
  now destruct (string_ge (EventForm.startTime event)
                          (EventForm.endTime event)).
Qed.

Lemma padded_time_order_witness :
  let ev := EventForm.mkEventData "" "T" (Some (newDate 2024 5 3 0 0))
              "09:05" "10:00" ""
              (EventForm.mkRecurrence "none" None None) "blue" in
  lt (timeToMinutes "09:05") (timeToMinutes "10:00") = true.
Proof.
  intros ev.
  apply (proj2 (padded_time_order ev "09" "05" "10" "00"
                  eq_refl eq_refl eq_refl eq_refl
                  ltac:(vm_compute; discriminate)
                  ltac:(vm_compute; discriminate) eq_refl eq_refl)).
  reflexivity.
Defined.

End ConflictsMore.

(** ** Editing the recurrence in the form *)

Section FormEditing.

Import JS Spec EventForm.

Lemma includes_In (l : list string) (x : string) :
  includes l x = true <-> In x l.
Proof.
  unfold includes. rewrite existsb_exists. split.
  - intros (y & Hy & E). apply String.eqb_eq in E. now subst y.
  - intros H. exists x. split; [exact H|apply String.eqb_refl].
Qed.

Lemma selectedDays_toggle (event : EventData) (day : string) :
  selectedDays (handleWeekdayToggle event day)
  = if includes (selectedDays event) day
    then filter (fun d => negb (String.eqb d day)) (selectedDays event)
    else (selectedDays event ++ [day])%list.
Proof. reflexivity. Qed.

(** X25. A tick on a weekday flips that day and no other: afterwards
    the day is selected exactly when it was not before, every other
    day is selected exactly when it was, a list without repetitions
    stays without repetitions, and type, interval and the other
    fields of the form are unchanged. *)
Theorem weekday_toggle_flips_one_day (event : EventData) (day : string) :
  let event' := handleWeekdayToggle event day in
  days (recurrence event') = Some (selectedDays event') /\
  (In day (selectedDays event') <-> ~ In day (selectedDays event)) /\
  (forall d, d <> day ->
             (In d (selectedDays event') <-> In d (selectedDays event))) /\
  (NoDup (selectedDays event) -> NoDup (selectedDays event')) /\
  type (recurrence event') = type (recurrence event) /\
  interval (recurrence event') = interval (recurrence event) /\
  withoutRecurrence event' = withoutRecurrence event.
Proof.
  cbv zeta. split; [reflexivity|].
  rewrite selectedDays_toggle.
  destruct (includes (selectedDays event) day) eqn:I.
  - apply includes_In in I. split; [|split; [|split]].
    + rewrite filter_In, negb_true_iff, String.eqb_neq. tauto.
    + intros d Hd. rewrite filter_In, negb_true_iff, String.eqb_neq. tauto.
    + intros Hn. now apply NoDup_filter.
    + repeat split.
  - assert (Hn : ~ In day (selectedDays event)).
    { intros H. apply includes_In in H. congruence. }
    split; [|split; [|split]].
    + rewrite in_app_iff. cbn [In]. tauto.
    + intros d Hd. rewrite in_app_iff. cbn [In]. split; [|tauto].
      intros [H|[H|[]]]; [exact H|congruence].
    + intros Hnd. apply NoDup_app; [exact Hnd|repeat constructor; tauto|].
      intros x Hx [<-|[]]. contradiction.
    + repeat split.
Qed.

(** X26. Two ticks on a weekday that was not selected give back the
    list of days as it was; two ticks on a selected weekday keep the
    same days but move that day to the end. *)
Theorem weekday_toggle_twice (event : EventData) (day : string) :
  let event'' := handleWeekdayToggle (handleWeekdayToggle event day) day in
  (~ In day (selectedDays event) ->
   selectedDays event'' = selectedDays event) /\
  (In day (selectedDays event) ->
   selectedDays event''
   = (filter (fun d => negb (String.eqb d day)) (selectedDays event)
      ++ [day])%list).
Proof.
  cbv zeta. rewrite !selectedDays_toggle.
  assert (F : forall l, ~ In day l ->
                        filter (fun d => negb (String.eqb d day)) l = l).
  { induction l as [|x l IH]; intros H; [reflexivity|]. cbn [filter].
    destruct (String.eqb_spec x day) as [E|E].
    - subst x. elim H. now left.
    - cbn [negb]. f_equal. apply IH. intros A. apply H. now right. }
  split.
  - intros Hn.
    assert (I : includes (selectedDays event) day = false).
    { apply not_true_is_false. intros A. apply includes_In in A. tauto. }
    rewrite I.
    assert (I' : includes (selectedDays event ++ [day]) day = true).
    { apply includes_In, in_app_iff. right. now left. }
    rewrite I', filter_app. cbn [filter]. rewrite String.eqb_refl.
    cbn [negb]. rewrite app_nil_r. now apply F.
  - intros Hin.
    assert (I : includes (selectedDays event) day = true)
      by now apply includes_In.
    rewrite I.
    assert (I' : includes (filter (fun d => negb (String.eqb d day))
                                  (selectedDays event)) day = false).
    { apply not_true_is_false. intros A. apply includes_In in A.
      apply filter_In in A as [_ A]. now rewrite String.eqb_refl in A. }
    now rewrite I'.
Qed.

Lemma weekday_toggle_twice_witness :
  let ev := mkEventData "" "T" None "09:00" "10:00" ""
              (mkRecurrence "weekly" (Some ["Monday"; "Friday"]) None) "blue"
  in
  selectedDays (handleWeekdayToggle (handleWeekdayToggle ev "Sunday")
                                    "Sunday")
  = ["Monday"; "Friday"].
Proof.
  intros ev.
  apply (proj1 (weekday_toggle_twice ev "Sunday")).
  intros [A|[A|[]]]; discriminate A.
Defined.

Lemma validateForm_valid_iff (event : EventData) :
  valid (validateForm event) = true <->
  firstFailing rules event = None.
Proof.
  rewrite validateForm_firstFailing.
  destruct (firstFailing rules event); split; (discriminate || reflexivity).
Qed.

Lemma basics_pass (event : EventData) (r : Recurrence) :
  valid (validateForm (withoutRecurrence event)) = true ->
  validateForm (withRecurrence event r)
  = if String.eqb (type r) "weekly" &&
       match days r with None => true
                    | Some l => Z.of_nat (List.length l) =? 0 end
    then invalid "Please select at least one day for weekly recurrence"
    else if String.eqb (type r) "custom" &&
            match interval r with None => true
                             | Some i => (i =? 0) || (i <? 1) end
         then invalid "Custom recurrence interval must be at least 1"
         else mkValidation true None.
Proof.
  unfold validateForm, withoutRecurrence, withRecurrence.
  cbn [title date startTime endTime recurrence type days interval].
  destruct (falsy_string (trim (title event))); [discriminate|].
  destruct (date event); [|discriminate].
  destruct (falsy_string (startTime event)); [discriminate|].
  destruct (falsy_string (endTime event)); [discriminate|].
  destruct (string_ge (startTime event) (endTime event)); [discriminate|].
  reflexivity.
Qed.

(** X27. For a form that would pass validation without recurrence:
    choosing weekly empties the days and blocks the save with the
    weekly message until a day is ticked, one tick on any day makes the
    form valid, and ticking that day off again blocks it again;
    choosing any other type, custom included (interval 1), gives a
    valid form. *)
Theorem recurrence_choice_and_validation (event : EventData) :
  valid (validateForm (withoutRecurrence event)) = true ->
  validateForm (handleRecurrenceChange event "weekly")
  = invalid "Please select at least one day for weekly recurrence" /\
  (forall day,
      valid (validateForm
               (handleWeekdayToggle (handleRecurrenceChange event "weekly")
                                    day)) = true /\
      validateForm
        (handleWeekdayToggle
           (handleWeekdayToggle (handleRecurrenceChange event "weekly") day)
           day)
      = invalid "Please select at least one day for weekly recurrence") /\
  (forall t, t <> "weekly" ->
             valid (validateForm (handleRecurrenceChange event t)) = true /\
             recurrence (handleRecurrenceChange event t)
             = mkRecurrence t None
                            (if String.eqb t "custom" then Some 1 else None)).
Proof.
  intros Hb.
  assert (E0 : handleRecurrenceChange event "weekly"
               = withRecurrence event (mkRecurrence "weekly" (Some []) None))
    by reflexivity.
  assert (E1 : forall day,
             handleWeekdayToggle (handleRecurrenceChange event "weekly") day
             = withRecurrence event
                 (mkRecurrence "weekly" (Some [day]) None))
    by reflexivity.
  assert (E2 : forall day,
             handleWeekdayToggle
               (withRecurrence event
                  (mkRecurrence "weekly" (Some [day]) None)) day
             = withRecurrence event (mkRecurrence "weekly" (Some []) None)).
  { intros day. unfold handleWeekdayToggle.
    cbn [recurrence withRecurrence days type interval includes existsb].
    rewrite String.eqb_refl. cbn [orb filter]. rewrite String.eqb_refl.
    reflexivity. }
  split; [|split].
  - rewrite E0. now rewrite (basics_pass _ _ Hb).
  - intros day. rewrite E1, E2. now rewrite !(basics_pass _ _ Hb).
  - intros t Ht. unfold handleRecurrenceChange.
    rewrite (basics_pass _ _ Hb).
    cbn [type days interval recurrence withRecurrence].
    destruct (String.eqb_spec t "weekly") as [E|_]; [contradiction|].
    cbn [andb]. split; [|reflexivity].
    destruct (String.eqb t "custom"); reflexivity.
Qed.

Lemma recurrence_choice_and_validation_witness :
  let ev := mkEventData "" "T" (Some (newDate 2024 5 3 0 0)) "09:00" "10:00"
              "" (mkRecurrence "none" None None) "blue" in
  valid (validateForm
           (handleWeekdayToggle (handleRecurrenceChange ev "weekly")
                                "Monday")) = true.
Proof.
  intros ev.
  exact (proj1 (proj1 (proj2 (recurrence_choice_and_validation ev eq_refl))
                      "Monday")).
Defined.

Lemma roundToDouble_small (v : Z) : v < 2 ^ 53 -> roundToDouble v = Some v.
Proof.
  intros H. unfold roundToDouble.
  now replace (v <? 2 ^ 53) with true by (symmetry; now apply Z.ltb_lt).
Qed.

(** What [parseInt] returns: NaN, an infinity, or an integer. *)
Lemma parseInt_cases (s : string) :
  parseInt s = NaN \/ parseInt s = PosInf \/ parseInt s = NegInf \/
  exists n : Z, parseInt s = ofZ n.
Proof.
  assert (K : forall (sign : Z) (ds : Z * nat * list ascii),
             let r := match ds with
                      | (_, O, _) => NaN
                      | (v, _, _) =>
                          match roundToDouble v with
                          | Some w => ofZ (sign * w)
                          | None => if sign <? 0 then NegInf else PosInf
                          end
                      end in
             r = NaN \/ r = PosInf \/ r = NegInf \/ exists n : Z, r = ofZ n).
  { intros sign [[v n] r]. cbv zeta. destruct n; [now left|].
    destruct (roundToDouble v) as [w|]; [now eauto|].
    destruct (sign <? 0); auto. }
  unfold parseInt.
  destruct (dropWhile isWhiteSpace (list_ascii_of_string s)) as [|c r];
    [apply K|].
  destruct (Ascii.eqb c "-"); [|destruct (Ascii.eqb c "+")].
  - destruct r as [|z [|x r']]; try apply K.
    destruct (Ascii.eqb z "0" && (Ascii.eqb x "x" || Ascii.eqb x "X"));
      apply K.
  - destruct r as [|z [|x r']]; try apply K.
    destruct (Ascii.eqb z "0" && (Ascii.eqb x "x" || Ascii.eqb x "X"));
      apply K.
  - destruct r as [|x r']; try apply K.
    destruct (Ascii.eqb c "0" && (Ascii.eqb x "x" || Ascii.eqb x "X"));
      apply K.
Qed.

(** On a run of decimal digits worth less than 2^53, [parseInt] gives
    the value. *)
Lemma parseInt_numeral (s : string) :
  isNumeral s = true -> decimalValue 0 s < 2 ^ 53 ->
  parseInt s = ofZ (decimalValue 0 s).
Proof.
  unfold isNumeral. intros H Hlt. apply andb_prop in H as [Hne Hd].
  unfold parseInt.
  rewrite (dropWhile_none _ (list_ascii_of_string s))
    by (intros c Hc; apply digit_not_whitespace; eauto using allDigits_In).
  destruct s as [|c r]; [discriminate|].
  pose proof Hd as Hd'. cbn [allDigits] in Hd'.
  apply andb_prop in Hd' as [Hc Hr].
  cbn [list_ascii_of_string].
  destruct (digit_not_sign c Hc) as [-> ->].
  assert (Hp : match c :: list_ascii_of_string r with
               | z :: x :: r0 =>
                   if Ascii.eqb z "0" && (Ascii.eqb x "x" || Ascii.eqb x "X")
                   then (16, r0) else (10, c :: list_ascii_of_string r)
               | _ => (10, c :: list_ascii_of_string r)
               end = (10, c :: list_ascii_of_string r)).
  { destruct r as [|x r']; [reflexivity|]. cbn [list_ascii_of_string].
    cbn [allDigits] in Hr. apply andb_prop in Hr as [Hx _].
    destruct (digit_not_radix x Hx) as (-> & _).
    now rewrite andb_false_r. }
  rewrite Hp.
  change (c :: list_ascii_of_string r) with (list_ascii_of_string (String c r)).
  rewrite (digits_allDigits _ 0 0%nat Hd).
  cbn [String.length Nat.add].
  rewrite (roundToDouble_small _ Hlt). f_equal. f_equal. lia.
Qed.

Lemma handleIntervalChange_ofZ (event : EventData) (value : string) (n : Z) :
  parseInt value = ofZ n ->
  handleIntervalChange event value
  = Some (withRecurrence event
            (mkRecurrence (type (recurrence event)) (days (recurrence event))
                          (Some (if n =? 0 then 1 else n)))).
Proof.
  intros H. unfold handleIntervalChange. rewrite H.
  cbn [falsy_number ofZ inject_Z Qnum].
  destruct (n =? 0); cbn [ofZ inject_Z Qnum Qden]; now rewrite Z.div_1_r.
Qed.

(** X28. An edit of the interval field stores what [parseInt] reads,
    and 1 where that is 0 or the text does not start with a number:
    the stored interval is never 0 and never absent. It is an integer
    unless the numeral is so long that [parseInt] gives an infinity. A
    run of decimal digits worth less than 2^53 gives its value, or 1
    for the value 0, which is at least 1, so that a custom form that
    would pass validation without recurrence passes it. *)
Theorem interval_edit_never_zero (event : EventData) (value : string) :
  (forall event' : EventData,
      handleIntervalChange event value = Some event' ->
      exists n : Z,
        event' = withRecurrence event
                   (mkRecurrence (type (recurrence event))
                                 (days (recurrence event)) (Some n)) /\
        n <> 0 /\
        (parseInt value = NaN -> n = 1)) /\
  (handleIntervalChange event value = None <->
   parseInt value = PosInf \/ parseInt value = NegInf) /\
  (isNumeral value = true -> decimalValue 0 value < 2 ^ 53 ->
   exists (event' : EventData) (n : Z),
     handleIntervalChange event value = Some event' /\
     interval (recurrence event') = Some n /\ 1 <= n /\
     (1 <= decimalValue 0 value -> n = decimalValue 0 value) /\
     (type (recurrence event) = "custom" ->
      valid (validateForm (withoutRecurrence event)) = true ->
      valid (validateForm event') = true)).
Proof.
  split; [|split].
  - intros event' H.
    destruct (parseInt_cases value) as [E|[E|[E|(n & E)]]].
    + unfold handleIntervalChange in H. rewrite E in H.
      cbn [falsy_number ofZ inject_Z Qnum Qden] in H.
      rewrite Z.div_1_r in H. injection H as <-.
      exists 1. split; [reflexivity|]. split; [discriminate|reflexivity].
    + unfold handleIntervalChange in H. rewrite E in H. discriminate H.
    + unfold handleIntervalChange in H. rewrite E in H. discriminate H.
    + rewrite (handleIntervalChange_ofZ _ _ _ E) in H. injection H as <-.
      eexists. split; [reflexivity|]. split.
      * destruct (Z.eqb_spec n 0); [discriminate|assumption].
      * rewrite E. discriminate.
  - split.
    + intros H. destruct (parseInt_cases value) as [E|[E|[E|(n & E)]]];
        [|now left|now right|].
      * unfold handleIntervalChange in H. rewrite E in H. discriminate H.
      * rewrite (handleIntervalChange_ofZ _ _ _ E) in H. discriminate H.
    + unfold handleIntervalChange. now intros [-> | ->].
  - intros Hnum Hlt.
    rewrite (handleIntervalChange_ofZ _ _ _ (parseInt_numeral _ Hnum Hlt)).
    pose proof Hnum as Hd. unfold isNumeral in Hd.
    apply andb_prop in Hd as [_ Hd].
    pose proof (decimalValue_nonneg value 0 Hd ltac:(lia)) as Hv.
    set (v := decimalValue 0 value) in *.
    eexists. eexists. split; [reflexivity|].
    cbn [recurrence withRecurrence interval].
    split; [reflexivity|].
    assert (Hn : 1 <= (if v =? 0 then 1 else v))
      by (destruct (Z.eqb_spec v 0); lia).
    split; [exact Hn|]. split.
    + intros H1. destruct (Z.eqb_spec v 0); [lia|reflexivity].
    + intros Ht Hb.
      rewrite (basics_pass event _ Hb). cbn [type days interval].
      rewrite Ht. cbn [String.eqb Ascii.eqb Bool.eqb andb].
      set (n := if v =? 0 then 1 else v) in *.
      destruct (Z.eqb_spec n 0), (Z.ltb_spec n 1); try lia. reflexivity.
Qed.

Lemma interval_edit_never_zero_witness :
  let ev := mkEventData "" "T" (Some (newDate 2024 5 3 0 0)) "09:00" "10:00"
              "" (mkRecurrence "custom" None (Some 1)) "blue" in
  (exists ev' n, handleIntervalChange ev "3" = Some ev' /\
                 interval (recurrence ev') = Some n /\ 1 <= n) /\
  parseInt "9007199254740993" = ofZ 9007199254740992.
Proof.
  intros ev. split.
  - destruct (proj2 (proj2 (interval_edit_never_zero ev "3")) eq_refl
                ltac:(vm_compute; reflexivity))
      as (ev' & n & H0 & H1 & H2 & _).
    exists ev', n. repeat split; assumption.
  - vm_compute. reflexivity.
Defined.

End FormEditing.

(** ** Opening the form on the host page *)

Section OpenThenSave.

Import JS Spec Home.

Lemma handleSaveEvent_accepted
      (tz : Zone) (confirmed : bool) (clock : Z) (s : State)
      (eventData : Event) :
  checkForEventConflicts tz s eventData = false \/ confirmed = true ->
  events (handleSaveEvent tz confirmed clock s eventData)
  = if isNewEvent s
    then (events s ++ [withId eventData (toString clock)])%list
    else map (fun e => if String.eqb (id e) (id eventData) then eventData
                       else e) (events s).
Proof.
  intros Hc. unfold handleSaveEvent.
  assert (E : checkForEventConflicts tz s eventData && negb confirmed = false)
    by (destruct Hc as [-> | ->]; [reflexivity|apply andb_false_r]).
  rewrite E. now destruct (isNewEvent s).
Qed.

(** X29. How the form was opened decides what a save does. Opened by
    [handleAddEvent], the form starts from an untitled event from 09:00
    to 10:00 without recurrence on the given date, or on the current
    date when none is given, and an accepted save appends the data as
    one more event. Opened by [handleEditEvent], an accepted save
    replaces the events that carry the edited id and adds none. In both
    cases opening the form leaves the list as it is. This holds in
    every time zone. *)
Theorem open_then_save
        (tz : Zone) (confirmed : bool) (now : Date) (clock : Z) (s : State)
        (eventData : Event) :
  (forall date : option Date,
      let s1 := handleAddEvent now s date in
      events s1 = events s /\ isEventFormOpen s1 = true /\
      (exists t, selectedEvent s1 = Some t /\
                 Home.date t = match date with Some d => d | None => now end /\
                 title t = "" /\ startTime t = "09:00" /\
                 endTime t = "10:00" /\
                 recurrence t = Some (mkRecurrence "none" None None None)) /\
      (checkForEventConflicts tz s1 eventData = false \/ confirmed = true ->
       events (handleSaveEvent tz confirmed clock s1 eventData)
       = (events s ++ [withId eventData (toString clock)])%list)) /\
  (forall event : Event,
      let s1 := handleEditEvent s event in
      events s1 = events s /\ isEventFormOpen s1 = true /\
      selectedEvent s1 = Some event /\
      (checkForEventConflicts tz s1 eventData = false \/ confirmed = true ->
       events (handleSaveEvent tz confirmed clock s1 eventData)
       = map (fun e => if String.eqb (id e) (id eventData) then eventData
                       else e) (events s))).
Proof.
  split.
  - intros date s1. subst s1. cbn [handleAddEvent events isEventFormOpen
                                    selectedEvent].
    split; [reflexivity|]. split; [reflexivity|]. split.
    + eexists. split; [reflexivity|]. repeat split.
    + intros Hc. now rewrite (handleSaveEvent_accepted _ _ _ _ _ Hc).
  - intros event s1. subst s1.
    cbn [handleEditEvent events isEventFormOpen selectedEvent].
    split; [reflexivity|]. split; [reflexivity|]. split; [reflexivity|].
    intros Hc. now rewrite (handleSaveEvent_accepted _ _ _ _ _ Hc).
Qed.

End OpenThenSave.
